(** * French tutor: phase state machine, turn gateway and command handling

    The repository holds two variants of the tutor client.

    - The quiz variant: [App.tsx] drives [geminiService.sendMessage], which
      owns a hard-coded question table, decides every phase transition and
      scores answers itself; the generator only supplies free text.
    - The command variant: an [App] component with a [tutorStateRef] drives
      [services/geminiService.ts], whose [callGemini] sends one prompt and
      returns the parsed JSON answer of the generator unchanged.

    Numbers are modelled as [Z], JavaScript strings as [string] (sequences
    of one-byte characters), [undefined]/[null] as [None].  An awaited call
    that may throw is given its outcome as an argument; handlers run to
    completion one after the other. *)

From Stdlib Require Import ZArith List String Ascii Bool Lia.
Import ListNotations.
Open Scope string_scope.
Open Scope Z_scope.

(** ** JavaScript string primitives used by the sources *)
Module JsString.

(** White space removed by [String.prototype.trim] (one-byte part). *)
Definition isWhiteSpace (c : ascii) : bool :=
  match nat_of_ascii c with
  | 9%nat | 10%nat | 11%nat | 12%nat | 13%nat | 32%nat => true
  | _ => false
  end.

Definition isEmpty (s : string) : bool :=
  match s with EmptyString => true | String _ _ => false end.

Fixpoint trimStart (s : string) : string :=
  match s with
  | EmptyString => EmptyString
  | String c rest => if isWhiteSpace c then trimStart rest else s
  end.

Fixpoint trimEnd (s : string) : string :=
  match s with
  | EmptyString => EmptyString
  | String c rest =>
      let rest' := trimEnd rest in
      if isWhiteSpace c && isEmpty rest' then EmptyString else String c rest'
  end.

Definition trim (s : string) : string := trimEnd (trimStart s).

(** [toLowerCase] on the letters A to Z; other characters are kept. *)
Definition lowerChar (c : ascii) : ascii :=
  let n := nat_of_ascii c in
  if (65 <=? n)%nat && (n <=? 90)%nat then ascii_of_nat (n + 32) else c.

Fixpoint toLowerCase (s : string) : string :=
  match s with
  | EmptyString => EmptyString
  | String c rest => String (lowerChar c) (toLowerCase rest)
  end.

Definition startsWith (s pre : string) : bool := String.prefix pre s.

(** [s.includes(pat)] *)
Fixpoint includes (s pat : string) : bool :=
  String.prefix pat s ||
  match s with
  | EmptyString => false
  | String _ rest => includes rest pat
  end.

(** [s.lastIndexOf(pat)]: the greatest index at which [pat] starts, or -1. *)
Fixpoint lastIndexOf_from (s pat : string) (i : Z) : Z :=
  let here := if String.prefix pat s then i else -1 in
  match s with
  | EmptyString => here
  | String _ rest => Z.max here (lastIndexOf_from rest pat (i + 1))
  end.

Definition lastIndexOf (s pat : string) : Z := lastIndexOf_from s pat 0.

(** [s.substring(a, b)]: both indices are clamped to [0, length] and
    swapped when [a > b]. *)
Definition substring (s : string) (a b : Z) : string :=
  let len := Z.of_nat (String.length s) in
  let clamp i := Z.max 0 (Z.min i len) in
  let lo := Z.min (clamp a) (clamp b) in
  let hi := Z.max (clamp a) (clamp b) in
  String.substring (Z.to_nat lo) (Z.to_nat (hi - lo)) s.

(** A string that does not begin with white space. *)
Definition startsClean (s : string) : Prop :=
  match s with
  | EmptyString => True
  | String c _ => isWhiteSpace c = false
  end.

End JsString.

(** ** The outcome of an awaited promise *)
Inductive Settled (A : Type) : Type :=
| Resolved (value : A)
| Rejected.
Arguments Resolved {A} value.
Arguments Rejected {A}.

(** * Quiz variant *)

(** ** [geminiService.sendMessage] with its question table *)
Module QuizService.

Inductive Phase : Type :=
| intro | teach | ask | evaluate | report | completed.

Definition Phase_eqb (a b : Phase) : bool :=
  match a, b with
  | intro, intro | teach, teach | ask, ask
  | evaluate, evaluate | report, report | completed, completed => true
  | _, _ => false
  end.

Inductive Screen : Type :=
| screen_intro | screen_lesson | screen_question | screen_feedback | screen_final.

Inductive InputKind : Type := input_none | input_multiple_choice.

Record Choice : Type := mkChoice { choice_id : Z; choice_label : string }.

Record TutorState : Type := mkTutorState { q : Z; score : Z }.

Record TutorUI : Type := mkTutorUI {
  screen : Screen;
  text : string;
  choices : list Choice;
  input : InputKind;
  progress : Z
}.

(** The [data] field of the source is always the empty object and is
    left out. *)
Record TutorResponse : Type := mkTutorResponse {
  phase : Phase;
  state : TutorState;
  ui : TutorUI
}.

Record QuestionData : Type := mkQuestionData {
  id : Z;
  question : string;
  question_choices : list Choice;
  correctAnswerId : Z;
  correctAnswerLabel : string
}.

Definition QUESTIONS : list QuestionData :=
  [ mkQuestionData 0 "What does 'Bonjour' mean in French?"
      [ mkChoice 0 "Good afternoon"; mkChoice 1 "Hello / Good day";
        mkChoice 2 "Good evening"; mkChoice 3 "Goodbye" ]
      1 "Hello / Good day";
    mkQuestionData 1 "How do you say 'Thank you' in French?"
      [ mkChoice 0 "Au revoir"; mkChoice 1 "Oui";
        mkChoice 2 "Merci"; mkChoice 3 "Non" ]
      2 "Merci";
    mkQuestionData 2 "What is 'Au revoir' used for?"
      [ mkChoice 0 "Greeting someone"; mkChoice 1 "Asking for help";
        mkChoice 2 "Saying goodbye"; mkChoice 3 "Expressing gratitude" ]
      2 "Saying goodbye";
    mkQuestionData 3 "Which phrase means 'Please'?"
      [ mkChoice 0 "Excusez-moi"; mkChoice 1 "S'il vous plaît";
        mkChoice 2 "De rien"; mkChoice 3 "Je t'aime" ]
      1 "S'il vous plaît";
    mkQuestionData 4 "If you want to apologize or get attention, you say:"
      [ mkChoice 0 "Ça va?"; mkChoice 1 "Bonne nuit";
        mkChoice 2 "Excusez-moi"; mkChoice 3 "Enchanté" ]
      2 "Excusez-moi" ].

(** [QUESTIONS.length] *)
Definition QUESTIONS_length : Z := Z.of_nat (List.length QUESTIONS).

(** [QUESTIONS[i]]: [undefined] outside the table. *)
Definition QUESTIONS_at (i : Z) : option QuestionData :=
  if i <? 0 then None else nth_error QUESTIONS (Z.to_nat i).

Definition getProgress (q : Z) (phase : Phase) : Z :=
  if Phase_eqb phase intro then 0
  else if Phase_eqb phase teach then 10
  else if Phase_eqb phase report || (q >=? QUESTIONS_length) then 100
  else 10 + q * 18.

(** What surrounds one call of [sendMessage]: whether the client object
    can be built, the text [generateContent] yields if the turn asks for
    one ([None]: the call throws), and whether the alerts and key dialog
    of the [catch] block return.  Each branch asks for at most one text;
    the wording of the prompt is left out, and a response without text is
    not told apart from one with text, since the code does not look at
    it. *)
Record TurnEnv : Type := mkTurnEnv {
  clientReady : bool;
  generated : option string;
  handlerCompletes : bool
}.

(** The body of the [try] block; [None] stands for a thrown exception.
    Reading a property of [QUESTIONS[i]] throws when the entry is
    [undefined]. *)
Definition bind {A B : Type} (x : option A) (f : A -> option B) : option B :=
  match x with Some a => f a | None => None end.

Notation "x <- e ;; k" := (bind e (fun x => k))
  (at level 61, e at next level, right associativity).

Definition respond (nextPhase : Phase) (nextQ nextScore : Z)
    (uiScreen : Screen) (uiText : string) (uiChoices : list Choice)
    (uiInput : InputKind) : TutorResponse :=
  mkTutorResponse nextPhase (mkTutorState nextQ nextScore)
    (mkTutorUI uiScreen uiText uiChoices uiInput (getProgress nextQ nextPhase)).

(** [userInput === currentQuestion.correctAnswerId] *)
Definition isCorrect (userInput : option Z) (currentQuestion : QuestionData) : bool :=
  match userInput with
  | Some chosen => chosen =? correctAnswerId currentQuestion
  | None => false
  end.

Definition sendMessage_try (gen : option string) (currentPhase : Phase)
    (currentQ currentScore : Z) (userInput : option Z) : option TutorResponse :=
  match currentPhase with
  | intro =>
      uiText <- gen ;;
      Some (respond teach currentQ currentScore screen_lesson uiText [] input_none)
  | teach =>
      let nextQ := 0 in
      questionData <- QUESTIONS_at nextQ ;;
      Some (respond ask nextQ currentScore screen_question
              (question questionData) (question_choices questionData)
              input_multiple_choice)
  | ask =>
      currentQuestion <- QUESTIONS_at currentQ ;;
      if isCorrect userInput currentQuestion then
        uiText <- gen ;;
        Some (respond evaluate currentQ (currentScore + 1) screen_feedback
                uiText [] input_none)
      else
        uiText <- gen ;;
        Some (respond evaluate currentQ currentScore screen_feedback
                uiText [] input_none)
  | evaluate =>
      let nextQ := currentQ + 1 in
      if nextQ <? QUESTIONS_length then
        questionData <- QUESTIONS_at nextQ ;;
        Some (respond ask nextQ currentScore screen_question
                (question questionData) (question_choices questionData)
                input_multiple_choice)
      else
        uiText <- gen ;;
        Some (respond report nextQ currentScore screen_final uiText [] input_none)
  | report =>
      uiText <- gen ;;
      Some (respond completed currentQ currentScore screen_final uiText [] input_none)
  | completed =>
      Some (respond completed currentQ currentScore screen_intro "" [] input_none)
  end.

(** The fallback error state returned by the [catch] block. *)
Definition fallback (currentPhase : Phase) (currentQ currentScore : Z) : TutorResponse :=
  mkTutorResponse currentPhase (mkTutorState currentQ currentScore)
    (mkTutorUI screen_intro
       "Error: Failed to load tutor content. Please check your network and API key."
       [] input_none (getProgress currentQ currentPhase)).

Definition sendMessage (env : TurnEnv) (currentPhase : Phase)
    (currentQ currentScore : Z) (userInput : option Z) : Settled TutorResponse :=
  if clientReady env then
    match sendMessage_try (generated env) currentPhase currentQ currentScore userInput with
    | Some response => Resolved response
    | None =>
        if handlerCompletes env
        then Resolved (fallback currentPhase currentQ currentScore)
        else Rejected
    end
  else Rejected.

(** A session as a client of the JSON interface holds it (the usage
    example of the README): the phase and state of the last response,
    sent back with the next request. *)
Record Session : Type := mkSession {
  session_phase : Phase;
  session_q : Z;
  session_score : Z
}.

Definition initialSession : Session := mkSession intro 0 0.

Definition sessionOf (r : TutorResponse) : Session :=
  mkSession (phase r) (q (state r)) (score (state r)).

(** One turn: [continue()] is a request without [userInput],
    [selectOption(id)] one with it.  A rejected request leaves the
    session as it was. *)
Definition turn (env : TurnEnv) (s : Session) (userInput : option Z) : Session :=
  match sendMessage env (session_phase s) (session_q s) (session_score s) userInput with
  | Resolved r => sessionOf r
  | Rejected => s
  end.

Fixpoint run (turns : list (TurnEnv * option Z)) (s : Session) : Session :=
  match turns with
  | [] => s
  | (env, userInput) :: rest => run rest (turn env s userInput)
  end.

(** An environment in which every call succeeds. *)
Definition fine (t : string) : TurnEnv := mkTurnEnv true (Some t) true.

(** An environment in which content generation throws. *)
Definition failing : TurnEnv := mkTurnEnv true None true.

(** The invariant of a session driven from the initial state; it is
    what the induction over the turns needs. *)
Definition Inv (s : Session) : Prop :=
  match session_phase s with
  | intro | teach => session_q s = 0 /\ session_score s = 0
  | ask =>
      0 <= session_q s < QUESTIONS_length /\
      0 <= session_score s <= session_q s
  | evaluate =>
      0 <= session_q s < QUESTIONS_length /\
      0 <= session_score s <= session_q s + 1
  | report | completed =>
      session_q s = QUESTIONS_length /\
      0 <= session_score s <= QUESTIONS_length
  end.

End QuizService.

(** ** The [App] component driving [sendMessage] *)
Module QuizApp.
Import QuizService.

(** React state and refs of the component. *)
Record App : Type := mkApp {
  tutorResponse : option TutorResponse;
  loading : bool;
  error : option string;
  selectedChoiceId : option Z;
  currentPhaseRef : Phase;
  currentQRef : Z;
  currentScoreRef : Z
}.

Definition INITIAL_TUTOR_STATE : TutorResponse :=
  mkTutorResponse intro (mkTutorState 0 0)
    (mkTutorUI screen_intro
       "Welcome to Introduction to French Language and French Culture! Let's begin our journey."
       [] input_none 0).

Definition initialApp : App := mkApp None false None None intro 0 0.

Definition setError (message : string) (app : App) : App :=
  mkApp (tutorResponse app) (loading app) (Some message) (selectedChoiceId app)
    (currentPhaseRef app) (currentQRef app) (currentScoreRef app).

Definition setSelectedChoiceId (choice : Z) (app : App) : App :=
  mkApp (tutorResponse app) (loading app) (error app) (Some choice)
    (currentPhaseRef app) (currentQRef app) (currentScoreRef app).

Definition processTutorTurn (env : TurnEnv) (app : App)
    (phase : Phase) (q score : Z) (userInput : option Z) : App :=
  match sendMessage env phase q score userInput with
  | Resolved response =>
      mkApp (Some response) false None None
        (QuizService.phase response)
        (QuizService.q (state response))
        (QuizService.score (state response))
  | Rejected =>
      mkApp (tutorResponse app) false
        (Some "Failed to load tutor content. Please try again.")
        (selectedChoiceId app)
        (currentPhaseRef app) (currentQRef app) (currentScoreRef app)
  end.

(** The three refs read as a session. *)
Definition refs (app : App) : Session :=
  mkSession (currentPhaseRef app) (currentQRef app) (currentScoreRef app).

(** The effect run once on mount. *)
Definition mount (env : TurnEnv) : App :=
  processTutorTurn env initialApp
    (phase INITIAL_TUTOR_STATE)
    (q (state INITIAL_TUTOR_STATE))
    (score (state INITIAL_TUTOR_STATE)) None.

Definition handleAction (env : TurnEnv) (app : App) (actionInput : option Z) : App :=
  match tutorResponse app with
  | None => app
  | Some _ =>
      let currentPhase := currentPhaseRef app in
      let currentQ := currentQRef app in
      let currentScore := currentScoreRef app in
      let userInput := actionInput in
      match currentPhase with
      | intro => processTutorTurn env app teach currentQ currentScore userInput
      | teach => processTutorTurn env app ask 0 currentScore userInput
      | ask =>
          match userInput with
          | None => setError "Please select an answer." app
          | Some _ => processTutorTurn env app evaluate currentQ currentScore userInput
          end
      | evaluate =>
          let nextQ := currentQ + 1 in
          if nextQ <? 5
          then processTutorTurn env app ask nextQ currentScore userInput
          else processTutorTurn env app report nextQ currentScore userInput
      | report => processTutorTurn env app completed currentQ currentScore userInput
      | completed =>
          let cleared :=
            mkApp None (loading app) (error app) (selectedChoiceId app) intro 0 0 in
          processTutorTurn env cleared
            (phase INITIAL_TUTOR_STATE)
            (q (state INITIAL_TUTOR_STATE))
            (score (state INITIAL_TUTOR_STATE)) None
      end
  end.

(** The states the component can be in: before and after the mount
    effect, and after any click. *)
Inductive reachable : App -> Prop :=
| reach_initial : reachable initialApp
| reach_mount (env : TurnEnv) : reachable (mount env)
| reach_choice (app : App) (choice : Z) :
    reachable app -> reachable (setSelectedChoiceId choice app)
| reach_action (env : TurnEnv) (app : App) (actionInput : option Z) :
    reachable app -> reachable (handleAction env app actionInput).

End QuizApp.

(** * Command variant *)

(** ** [services/geminiService.ts] *)
Module GeminiService.
Import JsString.

Inductive Phase : Type :=
| intro | teach | ask | evaluate | report | completed | paused.

Definition Phase_eqb (a b : Phase) : bool :=
  match a, b with
  | intro, intro | teach, teach | ask, ask | evaluate, evaluate
  | report, report | completed, completed | paused, paused => true
  | _, _ => false
  end.

Inductive InputType : Type := none | multiple_choice.

Record Option : Type := mkOption { id : Z; label : string }.

Record State : Type := mkState { question_index : Z; score : Z }.

Record Interface : Type := mkInterface {
  title : string;
  content : string;
  instructions : string;
  input_type : InputType;
  options : option (list Option);
  progress : Z
}.

Record PhaseResponse : Type := mkPhaseResponse {
  phase : Phase;
  state : State;
  interface : Interface;
  correct_answer_id : option Z
}.

(** The prompt is a fixed text with holes; the model keeps what fills
    the holes.  [feedbackContext] is present in phase evaluate only,
    [commandHandlingInstructions] only for a non-empty learner input. *)
Record Prompt : Type := mkPrompt {
  prompt_currentPhase : Phase;
  prompt_question_index : Z;
  prompt_score : Z;
  prompt_totalQuestions : Z;
  feedbackContext : option (bool * option string);
  commandHandlingInstructions : option string
}.

Definition truthy (s : option string) : bool :=
  match s with
  | Some t => negb (isEmpty t)
  | None => false
  end.

Definition buildGeminiPrompt (currentPhase : Phase) (currentState : State)
    (isPreviousAnswerCorrect : option bool) (selectedOptionLabel : option string)
    (learnerInput : option string) (totalQuestions : Z) : Prompt :=
  mkPrompt currentPhase (question_index currentState) (score currentState)
    totalQuestions
    (if Phase_eqb currentPhase evaluate
     then Some (match isPreviousAnswerCorrect with Some b => b | None => false end,
                selectedOptionLabel)
     else None)
    (if truthy learnerInput then learnerInput else None).

(** What one call of [callGemini] meets: the client constructor throws,
    [generateContent] throws, or it returns a response whose [text] may
    be [undefined]. *)
Inductive GenerateResult : Type :=
| ClientThrows (message : string)
| GenerateThrows (message : string)
| GenerateReturns (text : option string).

(** The remote side: the outcome of the n-th call of [callGemini], the
    number of calls made, and the prompts handed to [generateContent]
    so far. *)
Record Remote : Type := mkRemote {
  outcomes : nat -> GenerateResult;
  calls : nat;
  sent : list Prompt
}.

Definition cleanJson (rawJson : string) : string :=
  trim
    (if startsWith rawJson "```json"
     then substring rawJson 7 (lastIndexOf rawJson "```")
     else if startsWith rawJson "```"
     then substring rawJson 3 (lastIndexOf rawJson "```")
     else rawJson).

(** The message of the [Error] thrown by the [catch] block. *)
Definition errorMessage (message : string) : string :=
  if includes message "400" || includes message "bad request" then
    "There was an issue with the AI request (e.g., malformed prompt). Please try again, or report an issue if it persists."
  else if includes message "500" || includes message "internal server error" then
    "The AI tutor encountered a server error. Please try again in a moment."
  else if includes message "429" || includes message "rate limit" then
    "Too many requests. Please wait a moment before trying again."
  else "Failed to get response from AI tutor. Please try again.".

Section Host.

(** [JSON.parse] followed by the unchecked cast to [PhaseResponse];
    [inl] carries the message of the [SyntaxError]. *)
Variable JSON_parse : string -> string + PhaseResponse.

(** [constants.ts] is not among the sources. *)
Variable TOTAL_QUESTIONS : Z.

(** The [try] block on the answer of [generateContent]; [inl] is the
    message of the exception thrown inside it. *)
Definition callGemini_try (text : option string) : string + PhaseResponse :=
  match option_map trim text with
  | None => inl "Gemini response was empty or malformed."
  | Some rawJson =>
      if isEmpty rawJson
      then inl "Gemini response was empty or malformed."
      else JSON_parse (cleanJson rawJson)
  end.

Definition callGemini (remote : Remote) (currentPhase : Phase)
    (currentState : State) (isPreviousAnswerCorrect : option bool)
    (selectedOptionLabel : option string) (learnerInput : option string)
  : (string + PhaseResponse) * Remote :=
  let prompt :=
    buildGeminiPrompt currentPhase currentState isPreviousAnswerCorrect
      selectedOptionLabel learnerInput TOTAL_QUESTIONS in
  match outcomes remote (calls remote) with
  | ClientThrows message =>
      (inl message,
       mkRemote (outcomes remote) (S (calls remote)) (sent remote))
  | GenerateThrows message =>
      (inl (errorMessage message),
       mkRemote (outcomes remote) (S (calls remote)) (sent remote ++ [prompt]))
  | GenerateReturns text =>
      (match callGemini_try text with
       | inr response => inr response
       | inl message => inl (errorMessage message)
       end,
       mkRemote (outcomes remote) (S (calls remote)) (sent remote ++ [prompt]))
  end.

End Host.

End GeminiService.

(** ** The [App] component driving [callGemini] *)
Module TutorApp.
Import JsString GeminiService.

(** [tutorStateRef.current] *)
Record TutorRef : Type := mkTutorRef {
  ref_question_index : Z;
  ref_score : Z;
  currentPhase : Phase;
  correctAnswerId : option Z;
  selectedOptionLabel : option string
}.

Record App : Type := mkApp {
  phaseResponse : option PhaseResponse;
  isLoading : bool;
  error : option string;
  learnerCommandInput : string;
  tutorStateRef : TutorRef
}.

Definition initialApp : App :=
  mkApp None true None "" (mkTutorRef 0 0 intro None None).

Definition setTutorStateRef (ref : TutorRef) (app : App) : App :=
  mkApp (phaseResponse app) (isLoading app) (error app) (learnerCommandInput app) ref.

Definition setLearnerCommandInput (text : string) (app : App) : App :=
  mkApp (phaseResponse app) (isLoading app) (error app) text (tutorStateRef app).

Section Host.

Variable JSON_parse : string -> string + PhaseResponse.
Variable TOTAL_QUESTIONS : Z.

Definition fetchGeminiResponse (remote : Remote) (app : App)
    (isPreviousAnswerCorrect : option bool) (submitLearnerInput : option string)
  : Remote * App :=
  let ref := tutorStateRef app in
  let '(result, remote') :=
    callGemini JSON_parse TOTAL_QUESTIONS remote
      (currentPhase ref)
      (mkState (ref_question_index ref) (ref_score ref))
      isPreviousAnswerCorrect
      (selectedOptionLabel ref)
      submitLearnerInput in
  match result with
  | inr response =>
      (remote',
       mkApp (Some response) false None (learnerCommandInput app)
         (mkTutorRef
            (question_index (state response))
            (score (state response))
            (phase response)
            (correct_answer_id response)
            None))
  | inl message =>
      (remote',
       mkApp (phaseResponse app) false (Some message) (learnerCommandInput app) ref)
  end.

(** The effect run once on mount. *)
Definition mount (remote : Remote) : Remote * App :=
  fetchGeminiResponse remote initialApp None None.

Definition handleOptionSelect (remote : Remote) (app : App)
    (selectedOptionId : Z) (selectedOptionLabel : string) : Remote * App :=
  let ref := tutorStateRef app in
  if negb (Phase_eqb (currentPhase ref) ask) || isLoading app then (remote, app)
  else
    let isCorrect :=
      match correctAnswerId ref with
      | Some correct => selectedOptionId =? correct
      | None => false
      end in
    let ref' :=
      mkTutorRef
        (ref_question_index ref + 1)
        (if isCorrect then ref_score ref + 1 else ref_score ref)
        evaluate
        (correctAnswerId ref)
        (Some selectedOptionLabel) in
    fetchGeminiResponse remote (setTutorStateRef ref' app) (Some isCorrect) None.

Definition setCurrentPhase (phase : Phase) (app : App) : App :=
  let ref := tutorStateRef app in
  setTutorStateRef
    (mkTutorRef (ref_question_index ref) (ref_score ref) phase
       (correctAnswerId ref) (selectedOptionLabel ref)) app.

Definition handleContinue (remote : Remote) (app : App) : Remote * App :=
  if isLoading app then (remote, app)
  else
    let ref := tutorStateRef app in
    match currentPhase ref with
    | paused => fetchGeminiResponse remote app None (Some "resume")
    | evaluate =>
        if ref_question_index ref <? TOTAL_QUESTIONS
        then fetchGeminiResponse remote (setCurrentPhase ask app) None None
        else fetchGeminiResponse remote (setCurrentPhase report app) None None
    | intro => fetchGeminiResponse remote (setCurrentPhase teach app) None None
    | teach => fetchGeminiResponse remote (setCurrentPhase ask app) None None
    | report => fetchGeminiResponse remote (setCurrentPhase completed app) None None
    | ask | completed => fetchGeminiResponse remote app None None
    end.

(** The command text handed to the gateway for a raw input. *)
Definition submitCommand (phase : Phase) (raw : string) : string :=
  let command := toLowerCase (trim raw) in
  if String.eqb command "continue" && Phase_eqb phase paused
  then "resume" else command.

Definition handleCommandSubmit (remote : Remote) (app : App) : Remote * App :=
  if isLoading app || isEmpty (trim (learnerCommandInput app)) then (remote, app)
  else
    let '(remote', app') :=
      fetchGeminiResponse remote app None
        (Some (submitCommand (currentPhase (tutorStateRef app))
                 (learnerCommandInput app))) in
    (remote', setLearnerCommandInput "" app').

Definition handleExit (remote : Remote) (app : App) : Remote * App :=
  if isLoading app then (remote, app)
  else
    let '(remote', app') := fetchGeminiResponse remote app None (Some "exit") in
    (remote', setLearnerCommandInput "" app').

End Host.

End TutorApp.

(** * Definitions that follow the wording of the specification

  They are compared below with the definitions taken from the sources. *)
Module Stated.

(** The integer nearest to [n / d] for [d > 0], halves upwards, as
    [Math.round] of the exact quotient. *)
Definition round_div (n d : Z) : Z := (2 * n + d) / (2 * d).

(** Progress percentage as the specification words it. *)
Definition progress_formula (phase : QuizService.Phase)
    (questionIndex totalQuestions : Z) : Z :=
  match phase with
  | QuizService.intro => 0
  | QuizService.teach => 10
  | QuizService.ask | QuizService.evaluate =>
      10 + round_div (questionIndex * 90) totalQuestions
  | QuizService.report | QuizService.completed => 100
  end.

(** The shape the specification requires of a generator response:
    in phase ask three or four options and a [correct_answer_id] naming
    one of them; in teach, report and evaluate neither. *)
Definition valid_for_phase (r : GeminiService.PhaseResponse) : bool :=
  let opts := GeminiService.options (GeminiService.interface r) in
  match GeminiService.phase r with
  | GeminiService.ask =>
      match opts, GeminiService.correct_answer_id r with
      | Some l, Some c =>
          (3 <=? List.length l)%nat && (List.length l <=? 4)%nat
          && existsb (fun o => GeminiService.id o =? c) l
      | _, _ => false
      end
  | GeminiService.teach | GeminiService.report | GeminiService.evaluate =>
      match opts, GeminiService.correct_answer_id r with
      | None, None => true
      | _, _ => false
      end
  | _ => true
  end.

Inductive LearnerCommand : Type :=
| Review | Clarify | ReportIssue | Pause | Resume | Exit | Unrecognized.

(** Case-insensitive exact match against the command vocabulary. *)
Definition classify (raw : string) : LearnerCommand :=
  let t := JsString.toLowerCase raw in
  if String.eqb t "review" then Review
  else if String.eqb t "clarify" then Clarify
  else if String.eqb t "report_issue" then ReportIssue
  else if String.eqb t "pause" then Pause
  else if String.eqb t "resume" then Resume
  else if String.eqb t "exit" then Exit
  else Unrecognized.

End Stated.

(** * Sample data for concrete runs *)
Module Scenario.
Import GeminiService TutorApp.

(** A JSON string literal: the text between double quotes. *)
Definition quoted (s : string) : string :=
  String (ascii_of_nat 34) (s ++ String (ascii_of_nat 34) EmptyString).

(** A JSON member [key : value]. *)
Definition member (key value : string) : string := quoted key ++ ":" ++ value.

(** An answer for phase ask that lists no options and names no correct
    option, and the JSON text of it. *)
Definition bareAnswer : PhaseResponse :=
  mkPhaseResponse ask (mkState 1 1)
    (mkInterface "Question" "Que veut dire merci ?" "Choose one." multiple_choice None 10)
    None.

Definition bareAnswer_text : string :=
  "{" ++ member "phase" (quoted "ask") ++ ","
      ++ member "state"
           ("{" ++ member "question_index" "1" ++ "," ++ member "score" "1" ++ "}")
      ++ ","
      ++ member "interface"
           ("{" ++ member "title" (quoted "Question") ++ ","
                ++ member "content" (quoted "Que veut dire merci ?") ++ ","
                ++ member "instructions" (quoted "Choose one.") ++ ","
                ++ member "input_type" (quoted "multiple_choice") ++ ","
                ++ member "progress" "10" ++ "}")
      ++ "}".

(** An answer that follows the exit rule of the prompt for a session in
    state (0, 0), and the JSON text of it. *)
Definition farewell : PhaseResponse :=
  mkPhaseResponse completed (mkState 0 0)
    (mkInterface "Au revoir" "Your session has ended." "-" none None 100)
    None.

Definition farewell_text : string :=
  "{" ++ member "phase" (quoted "completed") ++ ","
      ++ member "state"
           ("{" ++ member "question_index" "0" ++ "," ++ member "score" "0" ++ "}")
      ++ ","
      ++ member "interface"
           ("{" ++ member "title" (quoted "Au revoir") ++ ","
                ++ member "content" (quoted "Your session has ended.") ++ ","
                ++ member "instructions" (quoted "-") ++ ","
                ++ member "input_type" (quoted "none") ++ ","
                ++ member "progress" "100" ++ "}")
      ++ "}".

(** A host parser given by what [JSON.parse] yields on one text; every
    other text is taken to be a syntax error. *)
Definition reads (text : string) (r : PhaseResponse) : string -> string + PhaseResponse :=
  fun s => if String.eqb s text then inr r else inl "Unexpected token".

(** A remote side on which every call returns the given text. *)
Definition replying (text : string) : Remote :=
  mkRemote (fun _ => GenerateReturns (Some text)) 0 [].

(** A remote side on which every call throws. *)
Definition unreachable : Remote :=
  mkRemote (fun _ => GenerateThrows "503 service unavailable") 0 [].

(** The component showing a question whose correct option is 1. *)
Definition asking : App :=
  mkApp None false None "" (mkTutorRef 0 0 ask (Some 1) None).

(** The component showing the feedback on the second answer. *)
Definition reviewing : App :=
  mkApp None false None "" (mkTutorRef 2 1 evaluate None None).

End Scenario.

(** * What the quiz component puts on the screen *)

(** The controls of [renderContent]: while loading there are none; with
    an error only Retry; otherwise the choice buttons of the response on
    display and the button of its phase. *)
Module QuizScreen.
Import QuizService QuizApp.

(** The choice buttons on display; a click on one calls
    [setSelectedChoiceId] with its id. *)
Definition shownChoices (app : App) : list Choice :=
  if loading app then []
  else
    match error app with
    | Some _ => []
    | None =>
        match tutorResponse app with
        | None => []
        | Some response =>
            match input (ui response) with
            | input_multiple_choice => choices (ui response)
            | input_none => []
            end
        end
    end.

(** The argument with which the enabled button on display calls
    [handleAction]; [None] when no button is shown or it is disabled. *)
Definition buttonAction (app : App) : option (option Z) :=
  if loading app then None
  else
    match error app with
    | Some _ => Some None
    | None =>
        match tutorResponse app with
        | None => None
        | Some response =>
            match phase response with
            | intro | teach | evaluate => Some None
            | ask =>
                match selectedChoiceId app with
                | None => None
                | Some chosen => Some (Some chosen)
                end
            | report => Some None
            | completed => None
            end
        end
    end.

(** The states reached by clicking what is on display. *)
Inductive driven : App -> Prop :=
| driven_initial : driven initialApp
| driven_mount (env : TurnEnv) : driven (mount env)
| driven_choice (app : App) (choice : Choice) :
    driven app -> In choice (shownChoices app) ->
    driven (setSelectedChoiceId (choice_id choice) app)
| driven_button (env : TurnEnv) (app : App) (actionInput : option Z) :
    driven app -> buttonAction app = Some actionInput ->
    driven (handleAction env app actionInput).

(** What the learner-driven run keeps: no point has been counted and the
    response on display is the one the refs were taken from. *)
Definition inStep (app : App) : Prop :=
  currentScoreRef app = 0 /\
  forall response, tutorResponse app = Some response ->
                   phase response = currentPhaseRef app.

(** The turns of a whole quiz: the lesson, the first question, then for
    each answer the selection and the acknowledgement of the feedback,
    and last the acknowledgement of the report. *)
Definition quizTurns (env : TurnEnv) (answers : list Z) : list (TurnEnv * option Z) :=
  [(env, None); (env, None)]
  ++ flat_map (fun answer => [(env, Some answer); (env, None)]) answers
  ++ [(env, None)].

(** The number of answers that are the correct option of their question. *)
Fixpoint correctAnswers (answers : list Z) (questions : list QuestionData) : Z :=
  match answers, questions with
  | answer :: answers', question :: questions' =>
      (if answer =? correctAnswerId question then 1 else 0)
      + correctAnswers answers' questions'
  | _, _ => 0
  end.

End QuizScreen.

(** * Texts a generator or a learner may send *)
Module JsText.
Import JsString.

(** A text made of white space only (the empty text included). *)
Fixpoint allWhiteSpace (s : string) : bool :=
  match s with
  | EmptyString => true
  | String c rest => isWhiteSpace c && allWhiteSpace rest
  end.

(** A body between a json code fence and its closing fence. *)
Definition jsonFenced (body : string) : string := "```json" ++ body ++ "```".

(** A body between two plain code fences. *)
Definition plainFenced (body : string) : string := "```" ++ body ++ "```".

(** The messages [callGemini] words itself. *)
Definition friendlyMessages : list string :=
  [ "There was an issue with the AI request (e.g., malformed prompt). Please try again, or report an issue if it persists.";
    "The AI tutor encountered a server error. Please try again in a moment.";
    "Too many requests. Please wait a moment before trying again.";
    "Failed to get response from AI tutor. Please try again." ].

End JsText.

(** * How far a session is from its end *)
Module QuizMeasure.
Import QuizService.

(** The number of successful turns that separate a session from phase
    Completed: the lesson, two turns for each question still to be
    answered, the report. *)
Definition turnsLeft (s : Session) : Z :=
  match session_phase s with
  | intro => 13
  | teach => 12
  | ask => 11 - 2 * session_q s
  | evaluate => 10 - 2 * session_q s
  | report => 1
  | completed => 0
  end.

End QuizMeasure.

(** * Concrete checks of the model *)
Section ConcreteChecks.
Import JsString.

Example trim_command : trim "  Exit " = "Exit".
Proof. reflexivity. Qed.

Example lower_command : toLowerCase "Report_Issue" = "report_issue".
Proof. reflexivity. Qed.

Example lastIndexOf_fence : lastIndexOf "```json{}```" "```" = 9.
Proof. reflexivity. Qed.

Example lastIndexOf_absent : lastIndexOf "{}" "```" = -1.
Proof. reflexivity. Qed.

Example substring_swaps : substring "```json" 7 0 = "```json".
Proof. reflexivity. Qed.

Example cleanJson_fenced : GeminiService.cleanJson "```json {} ```" = "{}".
Proof. reflexivity. Qed.

Example cleanJson_plain : GeminiService.cleanJson "{}" = "{}".
Proof. reflexivity. Qed.

Example farewell_text_begins :
  startsWith Scenario.farewell_text
    (String "{" (String (ascii_of_nat 34) "phase")) = true.
Proof. reflexivity. Qed.

Example errorMessage_rate_limit :
  GeminiService.errorMessage "got status: 429"
  = "Too many requests. Please wait a moment before trying again.".
Proof. reflexivity. Qed.

Example progress_values :
  map (fun i => QuizService.getProgress i QuizService.ask) [0; 1; 2; 3; 4; 5]
  = [10; 28; 46; 64; 82; 100].
Proof. reflexivity. Qed.

(** A whole session with every answer right: the lesson, five questions
    answered and acknowledged, the report and its acknowledgement. *)
Example session_all_correct :
  let ok := QuizService.fine "..." in
  QuizService.run
    [ (ok, None); (ok, None);
      (ok, Some 1); (ok, None); (ok, Some 2); (ok, None); (ok, Some 2); (ok, None);
      (ok, Some 1); (ok, None); (ok, Some 2); (ok, None);
      (ok, None) ]
    QuizService.initialSession
  = QuizService.mkSession QuizService.completed 5 5.
Proof. reflexivity. Qed.

(** The component as written: the click handler advances the phase
    before the service advances it again, so the first click in phase
    Teach already yields the feedback of an unanswered question. *)
Example first_click_after_lesson :
  let ok := QuizService.fine "..." in
  QuizApp.refs (QuizApp.handleAction ok (QuizApp.mount ok) None)
  = QuizService.mkSession QuizService.evaluate 0 0.
Proof. reflexivity. Qed.

End ConcreteChecks.

(** * Properties of the quiz variant *)
Section QuizProperties.
Import QuizService.

Lemma QUESTIONS_length_5 : QUESTIONS_length = 5.
Proof. reflexivity. Qed.

Lemma QUESTIONS_at_defined (i : Z) :
  0 <= i < QUESTIONS_length -> exists qd, QUESTIONS_at i = Some qd.
Proof.
  rewrite QUESTIONS_length_5. intros Hi.
  assert (Hcases : i = 0 \/ i = 1 \/ i = 2 \/ i = 3 \/ i = 4) by lia.
  destruct Hcases as [-> | [-> | [-> | [-> | ->]]]]; eexists; reflexivity.
Qed.

(** A response built by [respond] carries the progress of its own
    phase and question index. *)
Lemma sendMessage_try_progress gen p cq cs inp r :
  sendMessage_try gen p cq cs inp = Some r ->
  progress (ui r) = getProgress (q (state r)) (phase r).
Proof.
  unfold sendMessage_try, bind. intros H.
  destruct p; simpl in H;
    repeat match type of H with
      | match ?x with _ => _ end = _ => destruct x; simpl in H
      | (if ?b then _ else _) = _ => destruct b; simpl in H
      end;
    try discriminate; injection H as <-; reflexivity.
Qed.

Lemma sendMessage_progress env p cq cs inp r :
  sendMessage env p cq cs inp = Resolved r ->
  progress (ui r) = getProgress (q (state r)) (phase r).
Proof.
  unfold sendMessage. destruct (clientReady env); [| discriminate].
  destruct (sendMessage_try _ _ _ _ _) eqn:Htry.
  - intros [= <-]. eapply sendMessage_try_progress; eauto.
  - destruct (handlerCompletes env); [| discriminate].
    intros [= <-]. reflexivity.
Qed.

(** ** C6: progress percentage *)

(** C6, as stated, fails: in phase Completed with a question index
    below the number of questions [getProgress] does not return 100. *)
Lemma progress_completed_counterexample :
  ~ (forall phase questionIndex,
       0 <= questionIndex <= QUESTIONS_length ->
       getProgress questionIndex phase
       = Stated.progress_formula phase questionIndex QUESTIONS_length).
Proof.
  intros H. specialize (H completed 0). 
  assert (Hr : 0 <= 0 <= QUESTIONS_length) by (rewrite QUESTIONS_length_5; lia).
  specialize (H Hr). vm_compute in H. discriminate.
Qed.

(** C6, amended: for 0 <= questionIndex <= totalQuestions the progress
    percentage is the function [getProgress] of the phase and the
    question index alone: 0 for Intro, 10 for Teach,
    10 + round(questionIndex / totalQuestions * 90) for Ask and
    Evaluate, 100 for Report, and 100 for Completed when the question
    index has reached totalQuestions; the progress carried by every
    response of a turn is that function of the response's own phase and
    question index, whatever the generator produced. *)
Theorem progress_matches_formula :
  forall phase questionIndex,
    0 <= questionIndex <= QUESTIONS_length ->
    (phase = completed -> questionIndex = QUESTIONS_length) ->
    getProgress questionIndex phase
    = Stated.progress_formula phase questionIndex QUESTIONS_length
    /\ forall env currentPhase currentQ currentScore userInput r,
         sendMessage env currentPhase currentQ currentScore userInput = Resolved r ->
         progress (ui r) = getProgress (q (state r)) (QuizService.phase r).
Proof.
  intros p i Hi Hc. split; [| intros; eapply sendMessage_progress; eauto].
  rewrite QUESTIONS_length_5 in *.
  assert (Hround : Stated.round_div (i * 90) 5 = i * 18).
  { unfold Stated.round_div.
    replace (2 * (i * 90) + 5) with (5 + (i * 18) * (2 * 5)) by lia.
    rewrite Z.div_add by lia. reflexivity. }
  unfold getProgress, Stated.progress_formula.
  destruct p; cbn [Phase_eqb orb]; rewrite ?Hround; rewrite ?QUESTIONS_length_5.
  - reflexivity.
  - reflexivity.
  - destruct (Z.geb_spec i 5); lia.
  - destruct (Z.geb_spec i 5); lia.
  - reflexivity.
  - rewrite (Hc eq_refl). reflexivity.
Qed.

(** The third question: 10 + 2 * 18. *)
Lemma progress_matches_formula_witness :
  getProgress 2 ask = 46
  /\ getProgress 2 ask = Stated.progress_formula ask 2 QUESTIONS_length.
Proof.
  split; [reflexivity |].
  apply (progress_matches_formula ask 2).
  - rewrite QUESTIONS_length_5; lia.
  - discriminate.
Defined.

(** ** C1: the turn taken in phase Evaluate *)

Lemma evaluate_turn_keeps_score env currentQ currentScore userInput r :
  sendMessage env evaluate currentQ currentScore userInput = Resolved r ->
  score (state r) = currentScore.
Proof.
  unfold sendMessage. destruct (clientReady env); [| discriminate].
  destruct (sendMessage_try _ _ _ _ _) eqn:Htry.
  - intros [= <-]. revert Htry. unfold sendMessage_try, bind.
    destruct (currentQ + 1 <? QUESTIONS_length).
    + destruct (QUESTIONS_at _); [| discriminate]. intros [= <-]. reflexivity.
    + destruct (generated env); [| discriminate]. intros [= <-]. reflexivity.
  - destruct (handlerCompletes env); [| discriminate]. intros [= <-]. reflexivity.
Qed.

(** C1, as stated, fails: the point for a correct answer is already in
    the score returned by the Ask turn, and the Evaluate turn that follows
    adds nothing. *)
Lemma score_commit_counterexample :
  ~ (forall env currentQ currentScore chosen question r1 r2,
       QUESTIONS_at currentQ = Some question ->
       sendMessage env ask currentQ currentScore (Some chosen) = Resolved r1 ->
       phase r1 = evaluate ->
       sendMessage env evaluate (q (state r1)) (score (state r1)) None = Resolved r2 ->
       score (state r1) = currentScore /\
       score (state r2)
       = score (state r1) + (if chosen =? correctAnswerId question then 1 else 0)).
Proof.
  intros H.
  destruct (QUESTIONS_at 0) as [question |] eqn:Hq; [| discriminate].
  destruct (sendMessage (fine "Bravo") ask 0 0 (Some 1)) as [r1 |] eqn:H1;
    [| discriminate].
  destruct (sendMessage (fine "Bravo") evaluate (q (state r1)) (score (state r1)) None)
    as [r2 |] eqn:H2; [| vm_compute in H1; injection H1 as <-; discriminate].
  specialize (H (fine "Bravo") 0 0 1 question r1 r2 Hq H1).
  vm_compute in H1. injection H1 as <-.
  destruct (H eq_refl H2) as [Hscore _]. discriminate.
Qed.

(** C1, amended: a turn taken in phase Evaluate with a question index
    from 0 on returns phase Ask with the index incremented by 1 when
    questionIndex < totalQuestions - 1, and, when
    questionIndex = totalQuestions - 1 and the report text is generated,
    phase Report with the index incremented to totalQuestions; the click
    handler asks for the same phases from the same comparison.  The score
    is returned unchanged by every Evaluate turn: the point for a correct
    answer was committed by the Ask turn before it. *)
Theorem evaluate_turn_advances :
  forall env currentQ currentScore userInput,
    clientReady env = true ->
    0 <= currentQ ->
    (currentQ < QUESTIONS_length - 1 ->
     exists r,
       sendMessage env evaluate currentQ currentScore userInput = Resolved r /\
       phase r = ask /\ q (state r) = currentQ + 1 /\ score (state r) = currentScore)
    /\ (currentQ = QUESTIONS_length - 1 -> generated env <> None ->
        exists r,
          sendMessage env evaluate currentQ currentScore userInput = Resolved r /\
          phase r = report /\ q (state r) = QUESTIONS_length /\
          score (state r) = currentScore)
    /\ (forall env' q' score' input' r,
          sendMessage env' evaluate q' score' input' = Resolved r ->
          score (state r) = score')
    /\ (forall app,
          QuizApp.tutorResponse app <> None ->
          QuizApp.currentPhaseRef app = evaluate ->
          QuizApp.currentQRef app = currentQ ->
          QuizApp.handleAction env app userInput
          = QuizApp.processTutorTurn env app
              (if currentQ <? QUESTIONS_length - 1 then ask else report)
              (currentQ + 1) (QuizApp.currentScoreRef app) userInput).
Proof.
  intros env cq cs inp Hready Hq. rewrite QUESTIONS_length_5.
  repeat split.
  - intros Hlt.
    destruct (QUESTIONS_at_defined (cq + 1)) as [qd Hqd];
      [rewrite QUESTIONS_length_5; lia |].
    unfold sendMessage, sendMessage_try, bind. rewrite Hready, QUESTIONS_length_5.
    destruct (Z.ltb_spec (cq + 1) 5); [| lia].
    rewrite Hqd. eexists; repeat split.
  - intros -> Hgen. destruct (generated env) as [t |] eqn:Ht; [| congruence].
    unfold sendMessage, sendMessage_try, bind. rewrite Hready, Ht.
    eexists; repeat split.
  - intros. eapply evaluate_turn_keeps_score; eauto.
  - intros app Hloaded Hphase Hcq. unfold QuizApp.handleAction.
    destruct (QuizApp.tutorResponse app); [| congruence].
    rewrite Hphase, Hcq.
    destruct (Z.ltb_spec (cq + 1) 5), (Z.ltb_spec cq (5 - 1)); try lia; reflexivity.
Qed.

(** After the first question, with one point already counted. *)
Lemma evaluate_turn_advances_witness :
  exists r,
    sendMessage (fine "Bien") evaluate 0 1 None = Resolved r /\
    phase r = ask /\ q (state r) = 1 /\ score (state r) = 1.
Proof.
  destruct (evaluate_turn_advances (fine "Bien") 0 1 None) as [Hask _].
  - reflexivity.
  - lia.
  - apply Hask. rewrite QUESTIONS_length_5. lia.
Defined.

(** ** C2: the invariant of a session *)

Lemma turn_Inv env s userInput :
  Inv s -> Inv (turn env s userInput) /\ session_q s <= session_q (turn env s userInput).
Proof.
  destruct s as [p cq cs]. unfold Inv, turn, sendMessage. simpl.
  rewrite QUESTIONS_length_5. intros HI.
  destruct (clientReady env); [| simpl; split; [exact HI | lia]].
  destruct (sendMessage_try (generated env) p cq cs userInput) as [r |] eqn:Htry.
  2:{ destruct (handlerCompletes env); simpl; split; try exact HI; lia. }
  revert Htry. unfold sendMessage_try, bind.
  destruct p; simpl.
  - destruct (generated env); [| discriminate]. intros [= <-]. simpl. lia.
  - intros [= <-]. simpl. lia.
  - destruct (QUESTIONS_at cq) as [qd |]; [| discriminate].
    destruct (isCorrect userInput qd);
      (destruct (generated env); [| discriminate]); intros [= <-]; simpl; lia.
  - rewrite QUESTIONS_length_5. destruct (Z.ltb_spec (cq + 1) 5).
    + destruct (QUESTIONS_at (cq + 1)); [| discriminate].
      intros [= <-]. simpl. lia.
    + destruct (generated env); [| discriminate]. intros [= <-]. simpl. lia.
  - destruct (generated env); [| discriminate]. intros [= <-]. simpl. lia.
  - intros [= <-]. simpl. lia.
Qed.

Lemma run_Inv turns : forall s,
  Inv s -> Inv (run turns s) /\ session_q s <= session_q (run turns s).
Proof.
  induction turns as [| [env userInput] rest IH]; intros s HI; simpl.
  - split; [exact HI | lia].
  - destruct (turn_Inv env s userInput HI) as [HI' Hle].
    destruct (IH _ HI') as [HI'' Hle']. split; [exact HI'' | lia].
Qed.

Lemma run_app turns more s : run (turns ++ more) s = run more (run turns s).
Proof.
  revert s. induction turns as [| [env userInput] rest IH]; intros s; simpl.
  - reflexivity.
  - apply IH.
Qed.

Lemma Inv_bounds s :
  Inv s ->
  0 <= session_q s <= QUESTIONS_length /\
  0 <= session_score s <= session_q s + 1 /\
  (session_phase s <> evaluate -> session_score s <= session_q s).
Proof.
  unfold Inv. rewrite QUESTIONS_length_5.
  destruct (session_phase s); intros H; repeat split; try lia; congruence.
Qed.

(** C2, as stated, fails: after the first question is answered correctly
    the session is in phase Evaluate with questionIndex 0 and score 1. *)
Lemma score_bound_counterexample :
  ~ (forall turns,
       let s := run turns initialSession in
       0 <= session_q s <= QUESTIONS_length /\
       0 <= session_score s <= session_q s).
Proof.
  intros H.
  specialize (H [(fine "Bonjour", None); (fine "", None); (fine "Bravo", Some 1)]).
  vm_compute in H. destruct H as [_ [_ H]]. apply H. reflexivity.
Qed.

(** C2, amended: in every state reached from the initial state
    (questionIndex 0, score 0, phase Intro) by a sequence of continue and
    selectOption turns, whatever the generator does,
    0 <= questionIndex <= totalQuestions and 0 <= score <= questionIndex + 1,
    with score <= questionIndex in every phase other than Evaluate, and
    questionIndex never decreases along the sequence. *)
Theorem session_invariant :
  forall turns more,
    let s := run turns initialSession in
    0 <= session_q s <= QUESTIONS_length /\
    0 <= session_score s <= session_q s + 1 /\
    (session_phase s <> evaluate -> session_score s <= session_q s) /\
    session_q s <= session_q (run (turns ++ more) initialSession).
Proof.
  intros turns more s.
  assert (HI : Inv s).
  { apply run_Inv. unfold Inv. simpl. lia. }
  destruct (Inv_bounds s HI) as [Hq [Hs Hne]].
  repeat split; try tauto.
  rewrite run_app. apply run_Inv. exact HI.
Qed.

(** ** A turn whose content generation fails, seen from the service *)



(** ** C7: the Ask phase without an answer *)





End QuizProperties.

(** * Properties of the string primitives *)
Section StringProperties.
Import JsString.

Lemma isWhiteSpace_lowerChar c : isWhiteSpace (lowerChar c) = isWhiteSpace c.
Proof. destruct c as [[] [] [] [] [] [] [] []]; reflexivity. Qed.

Lemma lowerChar_idem c : lowerChar (lowerChar c) = lowerChar c.
Proof. destruct c as [[] [] [] [] [] [] [] []]; reflexivity. Qed.

Lemma toLowerCase_idem s : toLowerCase (toLowerCase s) = toLowerCase s.
Proof.
  induction s as [| c rest IH]; simpl; [reflexivity |].
  rewrite lowerChar_idem, IH. reflexivity.
Qed.

Lemma isEmpty_toLowerCase s : isEmpty (toLowerCase s) = isEmpty s.
Proof. destruct s; reflexivity. Qed.

Lemma toLowerCase_trimStart s : toLowerCase (trimStart s) = trimStart (toLowerCase s).
Proof.
  induction s as [| c rest IH]; simpl; [reflexivity |].
  rewrite isWhiteSpace_lowerChar. destruct (isWhiteSpace c); [exact IH | reflexivity].
Qed.

Lemma toLowerCase_trimEnd s : toLowerCase (trimEnd s) = trimEnd (toLowerCase s).
Proof.
  induction s as [| c rest IH]; simpl; [reflexivity |].
  rewrite isWhiteSpace_lowerChar, <- IH, isEmpty_toLowerCase.
  destruct (isWhiteSpace c && isEmpty (trimEnd rest)); simpl; [reflexivity |].
  reflexivity.
Qed.

Lemma toLowerCase_trim s : toLowerCase (trim s) = trim (toLowerCase s).
Proof. unfold trim. rewrite toLowerCase_trimEnd, toLowerCase_trimStart. reflexivity. Qed.

Lemma trimStart_clean s : startsClean (trimStart s).
Proof.
  induction s as [| c rest IH]; simpl; [exact I |].
  destruct (isWhiteSpace c) eqn:Hc; [exact IH | exact Hc].
Qed.

Lemma trimStart_of_clean s : startsClean s -> trimStart s = s.
Proof. destruct s as [| c rest]; simpl; [reflexivity |]. intros ->. reflexivity. Qed.

Lemma trimEnd_clean s : startsClean s -> startsClean (trimEnd s).
Proof.
  destruct s as [| c rest]; simpl; [exact (fun H => H) |].
  intros Hc. rewrite Hc. simpl. exact Hc.
Qed.

Lemma trimEnd_idem s : trimEnd (trimEnd s) = trimEnd s.
Proof.
  induction s as [| c rest IH]; simpl; [reflexivity |].
  destruct (isWhiteSpace c && isEmpty (trimEnd rest)) eqn:Hcut; simpl; [reflexivity |].
  rewrite IH, Hcut. reflexivity.
Qed.

Lemma trim_idem s : trim (trim s) = trim s.
Proof.
  unfold trim.
  rewrite (trimStart_of_clean (trimEnd (trimStart s))).
  - apply trimEnd_idem.
  - apply trimEnd_clean, trimStart_clean.
Qed.

End StringProperties.

(** * Properties of the command variant *)
Section CommandProperties.
Import JsString GeminiService TutorApp.

Variable JSON_parse : string -> string + PhaseResponse.
Variable TOTAL_QUESTIONS : Z.

(** The normalised command: trimmed and in lower case. *)
Lemma normalise_idem raw :
  toLowerCase (trim (toLowerCase (trim raw))) = toLowerCase (trim raw).
Proof.
  rewrite <- (toLowerCase_trim (trim raw)), toLowerCase_idem, trim_idem. reflexivity.
Qed.

Lemma submitCommand_idem phase raw :
  submitCommand phase (submitCommand phase raw) = submitCommand phase raw.
Proof.
  assert (Hin : submitCommand phase raw
                = if String.eqb (toLowerCase (trim raw)) "continue"
                     && Phase_eqb phase paused
                  then "resume" else toLowerCase (trim raw)) by reflexivity.
  destruct (String.eqb (toLowerCase (trim raw)) "continue" && Phase_eqb phase paused)
    eqn:Hc; rewrite Hin.
  - reflexivity.
  - unfold submitCommand. rewrite normalise_idem, Hc. reflexivity.
Qed.

Lemma classify_recognised raw :
  Stated.classify raw <> Stated.Unrecognized ->
  toLowerCase (trim raw) = toLowerCase raw /\
  String.eqb (toLowerCase raw) "continue" = false.
Proof.
  unfold Stated.classify. rewrite toLowerCase_trim.
  repeat match goal with
    | |- context [String.eqb ?a ?b] =>
        destruct (String.eqb_spec a b) as [-> | ?]; [split; reflexivity |]
    end.
  congruence.
Qed.

(** ** C8: command classification *)

(** C8, as stated, fails: the command handed on depends on the phase as
    well as on the text, and text outside the vocabulary is not mapped to
    Unrecognized: in phase Paused the text continue is sent as resume. *)
Lemma classification_counterexample :
  ~ (forall phase raw,
       Stated.classify (submitCommand phase raw) = Stated.classify raw)
  /\ submitCommand paused "continue" <> submitCommand ask "continue".
Proof.
  split.
  - intros H. specialize (H paused "continue"). vm_compute in H. discriminate.
  - vm_compute. discriminate.
Qed.

(** C8, amended: the command handed to the gateway is a function of the
    raw text and the current phase: the text trimmed and put in lower
    case, except that continue becomes resume in phase Paused; nothing is
    mapped to Unrecognized locally.  It does not depend on letter case or
    on surrounding white space, every word of the vocabulary (review,
    clarify, report_issue, pause, resume, exit) in any letter case is
    handed on as that word, and normalising twice gives the same command
    as normalising once. *)
Theorem submitCommand_normalises :
  forall phase raw,
    (forall raw', toLowerCase raw' = toLowerCase raw ->
                  submitCommand phase raw' = submitCommand phase raw)
    /\ submitCommand phase (trim raw) = submitCommand phase raw
    /\ submitCommand phase (submitCommand phase raw) = submitCommand phase raw
    /\ (phase <> paused -> submitCommand phase raw = toLowerCase (trim raw))
    /\ (Stated.classify raw <> Stated.Unrecognized ->
        submitCommand phase raw = toLowerCase raw /\
        Stated.classify (submitCommand phase raw) = Stated.classify raw)
    /\ (forall remote app,
          isLoading app = false ->
          isEmpty (trim (learnerCommandInput app)) = false ->
          handleCommandSubmit JSON_parse TOTAL_QUESTIONS remote app
          = (fst (fetchGeminiResponse JSON_parse TOTAL_QUESTIONS remote app None
                    (Some (submitCommand (currentPhase (tutorStateRef app))
                             (learnerCommandInput app)))),
             setLearnerCommandInput ""
               (snd (fetchGeminiResponse JSON_parse TOTAL_QUESTIONS remote app None
                       (Some (submitCommand (currentPhase (tutorStateRef app))
                                (learnerCommandInput app)))))))
    /\ (phase = paused -> toLowerCase (trim raw) = "continue" ->
        submitCommand phase raw = "resume")
    /\ (phase <> paused \/ toLowerCase (trim raw) <> "continue" ->
        submitCommand phase raw = toLowerCase (trim raw)).
Proof.
  intros phase raw. repeat split.
  - intros raw' Hsame. unfold submitCommand.
    rewrite !toLowerCase_trim, Hsame. reflexivity.
  - unfold submitCommand. rewrite trim_idem. reflexivity.
  - apply submitCommand_idem.
  - intros Hp. unfold submitCommand.
    destruct phase; try congruence; simpl; rewrite andb_false_r; reflexivity.
  - destruct (classify_recognised raw H) as [Hn Hc].
    unfold submitCommand. rewrite Hn, Hc. reflexivity.
  - destruct (classify_recognised raw H) as [Hn Hc].
    unfold submitCommand. rewrite Hn, Hc. simpl.
    unfold Stated.classify. rewrite toLowerCase_idem. reflexivity.
  - intros remote app Hload Hne. unfold handleCommandSubmit.
    rewrite Hload, Hne. simpl.
    destruct (fetchGeminiResponse _ _ _ _ _ _). reflexivity.
  - intros -> Hword. unfold submitCommand. rewrite Hword. reflexivity.
  - intros Hother. unfold submitCommand.
    destruct (String.eqb_spec (toLowerCase (trim raw)) "continue") as [Hword | Hword];
      [| reflexivity].
    destruct phase; try reflexivity.
    destruct Hother as [Hp | Hw]; [elim Hp; reflexivity | elim Hw; exact Hword].
Qed.

(** ** C4: what [callGemini] checks *)

Lemma callGemini_calls remote currentPhase currentState prev label learnerInput :
  let out := callGemini JSON_parse TOTAL_QUESTIONS remote currentPhase currentState
               prev label learnerInput in
  calls (snd out) = S (calls remote) /\ outcomes (snd out) = outcomes remote.
Proof.
  unfold callGemini. destruct (outcomes remote (calls remote)); simpl; split; reflexivity.
Qed.

Lemma callGemini_sent remote currentPhase currentState prev label learnerInput :
  let out := callGemini JSON_parse TOTAL_QUESTIONS remote currentPhase currentState
               prev label learnerInput in
  let prompt := buildGeminiPrompt currentPhase currentState prev label learnerInput
                  TOTAL_QUESTIONS in
  match outcomes remote (calls remote) with
  | ClientThrows _ => sent (snd out) = sent remote
  | _ => sent (snd out) = (sent remote ++ [prompt])%list
  end.
Proof.
  unfold callGemini. destruct (outcomes remote (calls remote)); reflexivity.
Qed.

Lemma callGemini_try_parsed text r :
  callGemini_try JSON_parse text = inr r <->
  exists t, text = Some t /\ isEmpty (trim t) = false /\
            JSON_parse (cleanJson (trim t)) = inr r.
Proof.
  unfold callGemini_try. destruct text as [t |]; simpl.
  - destruct (isEmpty (trim t)) eqn:He.
    + split; [discriminate |]. intros [t' [[= <-] [Hne _]]]. congruence.
    + split.
      * intros H. exists t. repeat split; assumption.
      * intros [t' [[= <-] [_ H]]]. exact H.
  - split; [discriminate |]. intros [t' [Ht _]]. discriminate.
Qed.

Lemma callGemini_parsed remote currentPhase currentState prev label learnerInput r :
  fst (callGemini JSON_parse TOTAL_QUESTIONS remote currentPhase currentState
         prev label learnerInput) = inr r <->
  exists t, outcomes remote (calls remote) = GenerateReturns (Some t) /\
            isEmpty (trim t) = false /\
            JSON_parse (cleanJson (trim t)) = inr r.
Proof.
  unfold callGemini. destruct (outcomes remote (calls remote)) as [m | m | text]; simpl.
  - split; [discriminate | intros [t [Ht _]]; discriminate].
  - split; [discriminate | intros [t [Ht _]]; discriminate].
  - destruct (callGemini_try JSON_parse text) as [m | r'] eqn:Htry.
    + split; [discriminate |]. intros [t [[= ->] Hrest]].
      assert (Hr : callGemini_try JSON_parse (Some t) = inr r)
        by (apply callGemini_try_parsed; exists t; tauto).
      congruence.
    + split.
      * intros [= <-]. apply callGemini_try_parsed in Htry as [t [-> Hrest]].
        exists t. tauto.
      * intros [t [[= ->] Hrest]].
        assert (Hr : callGemini_try JSON_parse (Some t) = inr r)
          by (apply callGemini_try_parsed; exists t; tauto).
        congruence.
Qed.

(** C4, amended: [callGemini] makes a single attempt and checks no field
    of the answer.  Each call counts once and hands at most one prompt to
    the generator; it returns a response exactly when the generator
    returned a text that is not empty after trimming and that parses as
    JSON once code fences are removed, and then returns what the parser
    produced, whatever its options and correct_answer_id are; in every
    other case an error is thrown to the caller without a second
    attempt. *)
Theorem callGemini_single_unchecked_attempt :
  forall remote currentPhase currentState prev label learnerInput,
    let out := callGemini JSON_parse TOTAL_QUESTIONS remote currentPhase currentState
                 prev label learnerInput in
    let prompt := buildGeminiPrompt currentPhase currentState prev label learnerInput
                    TOTAL_QUESTIONS in
    calls (snd out) = S (calls remote)
    /\ (sent (snd out) = sent remote \/ sent (snd out) = (sent remote ++ [prompt])%list)
    /\ (forall r,
          fst out = inr r <->
          exists t, outcomes remote (calls remote) = GenerateReturns (Some t) /\
                    isEmpty (trim t) = false /\
                    JSON_parse (cleanJson (trim t)) = inr r)
    /\ ((forall r, fst out <> inr r) -> exists message, fst out = inl message).
Proof.
  intros remote currentPhase currentState prev label learnerInput out prompt.
  repeat split.
  - apply callGemini_calls.
  - pose proof (callGemini_sent remote currentPhase currentState prev label learnerInput)
      as Hs. cbv zeta in Hs. fold out prompt in Hs.
    destruct (outcomes remote (calls remote)); [left | right | right]; exact Hs.
  - apply callGemini_parsed.
  - apply callGemini_parsed.
  - intros Hno. destruct (fst out) as [m | r]; [exists m; reflexivity |].
    exfalso. apply (Hno r). reflexivity.
Qed.

(** ** C5: the Exit command *)

Lemma fetchGeminiResponse_result remote app prev submit :
  let ref := tutorStateRef app in
  let called := callGemini JSON_parse TOTAL_QUESTIONS remote (currentPhase ref)
                  (mkState (ref_question_index ref) (ref_score ref)) prev
                  (selectedOptionLabel ref) submit in
  let out := fetchGeminiResponse JSON_parse TOTAL_QUESTIONS remote app prev submit in
  fst out = snd called /\
  match fst called with
  | inr r =>
      tutorStateRef (snd out)
      = mkTutorRef (question_index (state r)) (score (state r)) (phase r)
          (correct_answer_id r) None /\
      error (snd out) = None /\ phaseResponse (snd out) = Some r
  | inl message =>
      tutorStateRef (snd out) = ref /\
      error (snd out) = Some message /\ phaseResponse (snd out) = phaseResponse app
  end.
Proof.
  unfold fetchGeminiResponse.
  destruct (callGemini _ _ _ _ _ _ _ _) as [[m | r] remote']; simpl; repeat split.
Qed.

Lemma handleExit_unfolded remote app :
  isLoading app = false ->
  handleExit JSON_parse TOTAL_QUESTIONS remote app
  = (fst (fetchGeminiResponse JSON_parse TOTAL_QUESTIONS remote app None (Some "exit")),
     setLearnerCommandInput ""
       (snd (fetchGeminiResponse JSON_parse TOTAL_QUESTIONS remote app None (Some "exit")))).
Proof.
  intros Hload. unfold handleExit. rewrite Hload.
  destruct (fetchGeminiResponse _ _ _ _ _ _). reflexivity.
Qed.

(** C5, amended: when Exit is supplied and no turn is in flight, one
    request is made that carries the command text exit with the phase,
    question index and score as they were before the call, in every
    phase and without any answer selection; the phase and state committed
    are those of the generator's parsed answer, hence Completed with the
    state frozen when the answer says so; when the request fails the
    phase and state stay as they were. *)
Theorem handleExit_commits_answer :
  forall remote app,
    isLoading app = false ->
    let ref := tutorStateRef app in
    let out := handleExit JSON_parse TOTAL_QUESTIONS remote app in
    let prompt :=
      buildGeminiPrompt (currentPhase ref)
        (mkState (ref_question_index ref) (ref_score ref))
        None (selectedOptionLabel ref) (Some "exit") TOTAL_QUESTIONS in
    calls (fst out) = S (calls remote)
    /\ (commandHandlingInstructions prompt = Some "exit" /\
        prompt_currentPhase prompt = currentPhase ref /\
        prompt_question_index prompt = ref_question_index ref /\
        prompt_score prompt = ref_score ref)
    /\ (forall t r,
          outcomes remote (calls remote) = GenerateReturns (Some t) ->
          isEmpty (trim t) = false ->
          JSON_parse (cleanJson (trim t)) = inr r ->
          sent (fst out) = (sent remote ++ [prompt])%list /\
          currentPhase (tutorStateRef (snd out)) = phase r /\
          ref_question_index (tutorStateRef (snd out)) = question_index (state r) /\
          ref_score (tutorStateRef (snd out)) = score (state r))
    /\ (error (snd out) <> None -> tutorStateRef (snd out) = ref).
Proof.
  intros remote app Hload ref out prompt.
  unfold out. rewrite (handleExit_unfolded remote app Hload). simpl.
  pose proof (fetchGeminiResponse_result remote app None (Some "exit")) as Hf.
  cbv zeta in Hf. destruct Hf as [Hremote Hres]. rewrite Hremote. fold ref in Hres.
  split; [apply callGemini_calls |].
  split; [repeat split |].
  split.
  - intros t r Hout Hne Hparse.
    assert (Hr : fst (callGemini JSON_parse TOTAL_QUESTIONS remote (currentPhase ref)
                        (mkState (ref_question_index ref) (ref_score ref))
                        None (selectedOptionLabel ref) (Some "exit")) = inr r)
      by (apply callGemini_parsed; exists t; tauto).
    rewrite Hr in Hres. destruct Hres as [-> _].
    pose proof (callGemini_sent remote (currentPhase ref)
                  (mkState (ref_question_index ref) (ref_score ref))
                  None (selectedOptionLabel ref) (Some "exit")) as Hs.
    cbv zeta in Hs. rewrite Hout in Hs. repeat split. exact Hs.
  - intros Herr.
    destruct (fst (callGemini _ _ _ _ _ _ _ _)) as [m | r].
    + destruct Hres as [-> _]. reflexivity.
    + destruct Hres as [_ [Hnone _]]. congruence.
Qed.

(** ** C10: selecting an option outside the Ask phase *)

(** C10: in every phase other than Ask, and whenever a turn is in flight,
    [handleOptionSelect] returns with the component and the remote side
    exactly as they were: question index, score and phase are unchanged
    and no request is made. *)
Theorem handleOptionSelect_outside_ask :
  forall remote app selectedOptionId selectedLabel,
    currentPhase (tutorStateRef app) <> ask \/ isLoading app = true ->
    handleOptionSelect JSON_parse TOTAL_QUESTIONS remote app selectedOptionId selectedLabel
    = (remote, app).
Proof.
  intros remote app chosen lbl Hguard. unfold handleOptionSelect.
  destruct Hguard as [Hphase | Hload].
  - destruct (currentPhase (tutorStateRef app)); try reflexivity. congruence.
  - rewrite Hload, orb_true_r. reflexivity.
Qed.

End CommandProperties.

(** * Concrete runs of the command variant *)
Section CommandRuns.
Import JsString GeminiService TutorApp Scenario.

(** A vocabulary word typed with a capital, and continue typed while the
    lesson is paused. *)
Lemma submitCommand_normalises_witness :
  submitCommand ask "Exit" = "exit" /\
  Stated.classify (submitCommand ask "Exit") = Stated.Exit /\
  submitCommand paused " Continue " = "resume".
Proof.
  destruct (submitCommand_normalises (reads farewell_text farewell) 5 ask "Exit")
    as [_ [_ [_ [_ [Hvoc _]]]]].
  destruct Hvoc as [Hcmd Hcls]; [vm_compute; discriminate |].
  destruct (submitCommand_normalises (reads farewell_text farewell) 5 paused " Continue ")
    as [_ [_ [_ [_ [_ [_ [Hresume _]]]]]]].
  split; [exact Hcmd | split; [exact Hcls | apply Hresume; reflexivity]].
Defined.

(** C4, as stated, fails: an answer for phase ask without options and
    without correct_answer_id is returned as it is, after one call and
    one prompt. *)
Lemma unchecked_answer_counterexample :
  ~ (forall JSON_parse TOTAL remote currentPhase currentState prev label learnerInput r,
       fst (callGemini JSON_parse TOTAL remote currentPhase currentState
              prev label learnerInput) = inr r ->
       Stated.valid_for_phase r = true)
  /\ (let out := callGemini (reads bareAnswer_text bareAnswer) 5
                   (replying bareAnswer_text) teach (mkState 0 0) None None None in
      fst out = inr bareAnswer /\
      Stated.valid_for_phase bareAnswer = false /\
      calls (snd out) = 1%nat /\ List.length (sent (snd out)) = 1%nat).
Proof.
  split.
  - intros H.
    specialize (H (reads bareAnswer_text bareAnswer) 5 (replying bareAnswer_text)
                  teach (mkState 0 0) None None None bareAnswer eq_refl).
    vm_compute in H. discriminate.
  - vm_compute. repeat split.
Qed.

(** The answer returned in the run above is the parser's. *)
Lemma callGemini_single_unchecked_attempt_witness :
  exists t,
    outcomes (replying bareAnswer_text) 0%nat = GenerateReturns (Some t) /\
    isEmpty (trim t) = false /\
    reads bareAnswer_text bareAnswer (cleanJson (trim t)) = inr bareAnswer.
Proof.
  destruct (callGemini_single_unchecked_attempt (reads bareAnswer_text bareAnswer) 5
              (replying bareAnswer_text) teach (mkState 0 0) None None None)
    as [_ [_ [Hiff _]]].
  apply (proj1 (Hiff bareAnswer)). reflexivity.
Defined.

(** C5, as stated, fails: the phase after Exit is the one the
    generator's answer names, and stays the old one when the request
    fails. *)
Lemma exit_counterexample :
  ~ (forall JSON_parse TOTAL remote app,
       isLoading app = false ->
       let app' := snd (handleExit JSON_parse TOTAL remote app) in
       currentPhase (tutorStateRef app') = completed /\
       ref_question_index (tutorStateRef app') = ref_question_index (tutorStateRef app) /\
       ref_score (tutorStateRef app') = ref_score (tutorStateRef app))
  /\ (let app' := snd (handleExit (reads bareAnswer_text bareAnswer) 5
                         (replying bareAnswer_text) asking) in
      currentPhase (tutorStateRef app') = ask /\
      ref_question_index (tutorStateRef app') = 1 /\
      ref_score (tutorStateRef app') = 1)
  /\ currentPhase
       (tutorStateRef
          (snd (handleExit (reads farewell_text farewell) 5 unreachable asking)))
     = ask.
Proof.
  split; [| split].
  - intros H.
    specialize (H (reads bareAnswer_text bareAnswer) 5 (replying bareAnswer_text)
                  asking eq_refl).
    vm_compute in H. destruct H as [H _]. discriminate.
  - vm_compute. repeat split.
  - reflexivity.
Qed.

(** A generator that follows the exit rule of the prompt. *)
Lemma handleExit_commits_answer_witness :
  let out := handleExit (reads farewell_text farewell) 5 (replying farewell_text) asking in
  currentPhase (tutorStateRef (snd out)) = completed /\
  ref_question_index (tutorStateRef (snd out)) = 0 /\
  ref_score (tutorStateRef (snd out)) = 0.
Proof.
  destruct (handleExit_commits_answer (reads farewell_text farewell) 5
              (replying farewell_text) asking eq_refl)
    as [_ [_ [Hanswer _]]].
  destruct (Hanswer farewell_text farewell eq_refl eq_refl eq_refl)
    as [_ [Hp [Hq Hs]]].
  intros out. split; [exact Hp | split; [exact Hq | exact Hs]].
Defined.

(** A click on an option while the feedback is on display. *)
Lemma handleOptionSelect_outside_ask_witness :
  handleOptionSelect (reads farewell_text farewell) 5 (replying farewell_text)
    reviewing 0 "Merci"
  = (replying farewell_text, reviewing).
Proof.
  apply handleOptionSelect_outside_ask. left. discriminate.
Defined.

End CommandRuns.

(** * Scoring an answer *)

(** C9, as stated, fails: a turn in phase Ask with the correct option
    selected, whose feedback cannot be generated, returns phase Ask and
    the score it was given. *)
Lemma failed_feedback_counterexample :
  ~ (forall env currentQ currentScore chosen question r,
       QuizService.QUESTIONS_at currentQ = Some question ->
       QuizService.sendMessage env QuizService.ask currentQ currentScore (Some chosen)
       = Resolved r ->
       QuizService.phase r = QuizService.evaluate /\
       QuizService.score (QuizService.state r)
       = (if chosen =? QuizService.correctAnswerId question
          then currentScore + 1 else currentScore)).
Proof.
  intros H.
  destruct (QuizService.QUESTIONS_at 0) as [question |] eqn:Hq; [| discriminate].
  destruct (H QuizService.failing 0 0 1 question
              (QuizService.fallback QuizService.ask 0 0) Hq eq_refl) as [Hphase _].
  discriminate.
Qed.

(** C9, amended: the answer is scored by the client, not by the
    generator.  A turn of [sendMessage] in phase Ask with a selected
    option on a stored question returns, when the feedback text is
    generated, phase Evaluate with the same question index and the score
    plus 1 exactly when the selected option id is the stored correct id
    of that question, the score unchanged otherwise; the only other
    response of such a turn is the fallback of a failed generation, which
    keeps phase Ask and the score of the request.  In the command variant
    [handleOptionSelect] in phase Ask compares the selected id with the
    correct id kept from the question, writes the score so obtained,
    phase Evaluate and the next question index into the refs, and sends
    one request that carries them with the verdict; if that request
    fails the refs keep these values, and if it succeeds the refs take
    the phase and state of the generator's answer. *)
Theorem answer_scored_locally :
  (forall env currentQ currentScore chosen question,
     QuizService.clientReady env = true ->
     QuizService.QUESTIONS_at currentQ = Some question ->
     QuizService.generated env <> None ->
     exists r,
       QuizService.sendMessage env QuizService.ask currentQ currentScore (Some chosen)
       = Resolved r /\
       QuizService.phase r = QuizService.evaluate /\
       QuizService.q (QuizService.state r) = currentQ /\
       QuizService.score (QuizService.state r)
       = (if chosen =? QuizService.correctAnswerId question
          then currentScore + 1 else currentScore))
  /\ (forall env currentQ currentScore chosen question r,
        QuizService.QUESTIONS_at currentQ = Some question ->
        QuizService.sendMessage env QuizService.ask currentQ currentScore (Some chosen)
        = Resolved r ->
        (QuizService.generated env <> None /\
         QuizService.phase r = QuizService.evaluate /\
         QuizService.q (QuizService.state r) = currentQ /\
         QuizService.score (QuizService.state r)
         = (if chosen =? QuizService.correctAnswerId question
            then currentScore + 1 else currentScore))
        \/ (QuizService.generated env = None /\
            r = QuizService.fallback QuizService.ask currentQ currentScore))
  /\ (forall JSON_parse TOTAL remote app chosen label correct,
        TutorApp.currentPhase (TutorApp.tutorStateRef app) = GeminiService.ask ->
        TutorApp.isLoading app = false ->
        TutorApp.correctAnswerId (TutorApp.tutorStateRef app) = Some correct ->
        let ref := TutorApp.tutorStateRef app in
        let verdict := chosen =? correct in
        let scored :=
          TutorApp.mkTutorRef
            (TutorApp.ref_question_index ref + 1)
            (if verdict then TutorApp.ref_score ref + 1 else TutorApp.ref_score ref)
            GeminiService.evaluate (Some correct) (Some label) in
        let called :=
          GeminiService.callGemini JSON_parse TOTAL remote GeminiService.evaluate
            (GeminiService.mkState
               (TutorApp.ref_question_index ref + 1)
               (if verdict then TutorApp.ref_score ref + 1 else TutorApp.ref_score ref))
            (Some verdict) (Some label) None in
        let out := TutorApp.handleOptionSelect JSON_parse TOTAL remote app chosen label in
        fst out = snd called /\
        TutorApp.isLoading (snd out) = false /\
        match fst called with
        | inr answer =>
            TutorApp.tutorStateRef (snd out)
            = TutorApp.mkTutorRef
                (GeminiService.question_index (GeminiService.state answer))
                (GeminiService.score (GeminiService.state answer))
                (GeminiService.phase answer)
                (GeminiService.correct_answer_id answer) None /\
            TutorApp.phaseResponse (snd out) = Some answer /\
            TutorApp.error (snd out) = None
        | inl message =>
            TutorApp.tutorStateRef (snd out) = scored /\
            TutorApp.phaseResponse (snd out) = TutorApp.phaseResponse app /\
            TutorApp.error (snd out) = Some message
        end).
Proof.
  split; [| split].
  - intros env cq cs chosen question Hready Hq Hgen.
    destruct (QuizService.generated env) as [t |] eqn:Ht; [| congruence].
    unfold QuizService.sendMessage, QuizService.sendMessage_try, QuizService.bind.
    rewrite Hready, Hq, Ht. simpl.
    destruct (chosen =? QuizService.correctAnswerId question);
      eexists; repeat split.
  - intros env cq cs chosen question r Hq.
    unfold QuizService.sendMessage, QuizService.sendMessage_try, QuizService.bind.
    rewrite Hq. simpl.
    destruct (QuizService.clientReady env); [| discriminate].
    destruct (QuizService.generated env) as [t |].
    + destruct (chosen =? QuizService.correctAnswerId question);
        intros [= <-]; left; repeat split; discriminate.
    + destruct (chosen =? QuizService.correctAnswerId question);
        (destruct (QuizService.handlerCompletes env); [| discriminate]);
        intros [= <-]; right; split; reflexivity.
  - intros JSON_parse TOTAL remote app chosen label correct Hphase Hload Hcorrect
      ref verdict scored called out.
    unfold out, TutorApp.handleOptionSelect.
    rewrite Hphase, Hload, Hcorrect. cbn [GeminiService.Phase_eqb negb orb].
    fold ref verdict. fold scored.
    unfold TutorApp.fetchGeminiResponse.
    cbn [TutorApp.tutorStateRef TutorApp.setTutorStateRef TutorApp.currentPhase
         TutorApp.ref_question_index TutorApp.ref_score TutorApp.selectedOptionLabel
         scored].
    fold called.
    destruct called as [[message | answer] remote']; cbn; repeat split.
Qed.

(** The second question answered with its correct option. *)
Lemma answer_scored_locally_witness :
  exists r,
    QuizService.sendMessage (QuizService.fine "Bravo") QuizService.ask 1 0 (Some 2)
    = Resolved r /\
    QuizService.phase r = QuizService.evaluate /\
    QuizService.score (QuizService.state r) = 1.
Proof.
  destruct answer_scored_locally as [Hquiz _].
  destruct (Hquiz (QuizService.fine "Bravo") 1 0 2
              (QuizService.mkQuestionData 1 "How do you say 'Thank you' in French?"
                 [ QuizService.mkChoice 0 "Au revoir"; QuizService.mkChoice 1 "Oui";
                   QuizService.mkChoice 2 "Merci"; QuizService.mkChoice 3 "Non" ]
                 2 "Merci"))
    as [r [Hr [Hp [_ Hs]]]].
  - reflexivity.
  - reflexivity.
  - discriminate.
  - exists r. split; [exact Hr | split; [exact Hp | exact Hs]].
Defined.

(** A session run of three turns: the lesson, the first question, a
    correct answer. *)
Lemma session_invariant_witness :
  let s := QuizService.run
             [(QuizService.fine "Bonjour", None); (QuizService.fine "", None);
              (QuizService.fine "Bravo", Some 1)] QuizService.initialSession in
  QuizService.session_phase s = QuizService.evaluate /\
  0 <= QuizService.session_score s <= QuizService.session_q s + 1.
Proof.
  intros s. split; [reflexivity |].
  destruct (session_invariant
              [(QuizService.fine "Bonjour", None); (QuizService.fine "", None);
               (QuizService.fine "Bravo", Some 1)] []) as [_ [Hs _]].
  exact Hs.
Defined.

(** * Further properties of the quiz variant *)
Section QuizService_more.
Import QuizService.

Lemma QUESTIONS_at_outside (i : Z) :
  i < 0 \/ QUESTIONS_length <= i -> QUESTIONS_at i = None.
Proof.
  rewrite QUESTIONS_length_5. unfold QUESTIONS_at. intros [Hi | Hi].
  - destruct (Z.ltb_spec i 0); [reflexivity | lia].
  - destruct (Z.ltb_spec i 0); [reflexivity |].
    apply nth_error_None. simpl. lia.
Qed.

Lemma sendMessage_cases env p cq cs inp r :
  sendMessage env p cq cs inp = Resolved r ->
  sendMessage_try (generated env) p cq cs inp = Some r \/
  (sendMessage_try (generated env) p cq cs inp = None /\ r = fallback p cq cs).
Proof.
  unfold sendMessage. destruct (clientReady env); [| discriminate].
  destruct (sendMessage_try _ _ _ _ _).
  - intros [= <-]. left. reflexivity.
  - destruct (handlerCompletes env); [| discriminate].
    intros [= <-]. right. split; reflexivity.
Qed.

Lemma turn_cases env s inp :
  turn env s inp = s \/
  exists r,
    sendMessage_try (generated env) (session_phase s) (session_q s) (session_score s) inp
    = Some r /\ turn env s inp = sessionOf r.
Proof.
  unfold turn.
  destruct (sendMessage env (session_phase s) (session_q s) (session_score s) inp)
    as [r |] eqn:Hs; [| left; reflexivity].
  destruct (sendMessage_cases _ _ _ _ _ _ Hs) as [Htry | [_ ->]].
  - right. exists r. split; [exact Htry | reflexivity].
  - left. destruct s. reflexivity.
Qed.

Lemma isCorrect_true inp qd :
  isCorrect inp qd = true -> inp = Some (correctAnswerId qd).
Proof.
  destruct inp as [chosen |]; simpl; [| discriminate].
  intros H. apply Z.eqb_eq in H. congruence.
Qed.

Lemma sendMessage_try_score gen p cq cs inp r :
  sendMessage_try gen p cq cs inp = Some r ->
  score (state r) = cs \/
  (score (state r) = cs + 1 /\ p = ask /\ phase r = evaluate /\
   exists qd, QUESTIONS_at cq = Some qd /\ inp = Some (correctAnswerId qd)).
Proof.
  unfold sendMessage_try, bind. destruct p.
  - destruct gen; [| discriminate]. intros [= <-]. left. reflexivity.
  - destruct (QUESTIONS_at 0); [| discriminate]. intros [= <-]. left. reflexivity.
  - destruct (QUESTIONS_at cq) as [qd |] eqn:Hq; [| discriminate].
    destruct (isCorrect inp qd) eqn:Hc;
      (destruct gen; [| discriminate]); intros [= <-].
    + right. repeat split. exists qd. split; [reflexivity |].
      apply isCorrect_true. exact Hc.
    + left. reflexivity.
  - destruct (cq + 1 <? QUESTIONS_length).
    + destruct (QUESTIONS_at (cq + 1)); [| discriminate]. intros [= <-]. left. reflexivity.
    + destruct gen; [| discriminate]. intros [= <-]. left. reflexivity.
  - destruct gen; [| discriminate]. intros [= <-]. left. reflexivity.
  - intros [= <-]. left. reflexivity.
Qed.

Lemma turn_score_step env s inp :
  session_score (turn env s inp) = session_score s \/
  (session_score (turn env s inp) = session_score s + 1 /\
   session_phase s = ask /\ session_phase (turn env s inp) = evaluate /\
   exists qd, QUESTIONS_at (session_q s) = Some qd /\
              inp = Some (correctAnswerId qd)).
Proof.
  destruct (turn_cases env s inp) as [-> | [r [Htry ->]]]; [left; reflexivity |].
  destruct (sendMessage_try_score _ _ _ _ _ _ Htry) as [H | H]; [left | right]; exact H.
Qed.

(** X1: one turn leaves the score as it is or adds exactly one point, and
    a point is added only by a turn in phase Ask that moves to Evaluate
    and whose input is the correct option of the stored question. *)
Theorem turn_scores_at_most_one_point :
  forall env s userInput,
    let s' := turn env s userInput in
    session_score s' = session_score s \/
    (session_score s' = session_score s + 1 /\
     session_phase s = ask /\ session_phase s' = evaluate /\
     exists qd, QUESTIONS_at (session_q s) = Some qd /\
                userInput = Some (correctAnswerId qd)).
Proof.
  intros env s inp s'. apply turn_score_step.
Qed.

Lemma turn_completed env cq cs inp :
  turn env (mkSession completed cq cs) inp = mkSession completed cq cs.
Proof.
  unfold turn, sendMessage. simpl. destruct (clientReady env); reflexivity.
Qed.

(** X2: phase Completed is final for the service: whatever turns follow
    and whatever the generator does, the session keeps phase Completed,
    its question index and its score. *)
Theorem completed_is_final :
  forall turns questionIndex points,
    run turns (mkSession completed questionIndex points)
    = mkSession completed questionIndex points.
Proof.
  induction turns as [| [env inp] rest IH]; intros cq cs; simpl.
  - reflexivity.
  - rewrite turn_completed. apply IH.
Qed.

Lemma run_score_monotone turns : forall s,
  session_score s <= session_score (run turns s).
Proof.
  induction turns as [| [env inp] rest IH]; intros s; simpl; [lia |].
  specialize (IH (turn env s inp)).
  destruct (turn_score_step env s inp) as [H | [H _]]; lia.
Qed.

Lemma Inv_score_bound s : Inv s -> 0 <= session_score s <= QUESTIONS_length.
Proof.
  unfold Inv. rewrite QUESTIONS_length_5. destruct (session_phase s); lia.
Qed.

(** X3: along every sequence of turns from the initial session the score
    never decreases and stays between 0 and the number of questions. *)
Theorem score_monotone_and_bounded :
  forall turns more,
    let s := run turns initialSession in
    0 <= session_score s <= QUESTIONS_length /\
    session_score s <= session_score (run (turns ++ more) initialSession).
Proof.
  intros turns more s. split.
  - apply Inv_score_bound. apply run_Inv. unfold Inv. simpl. lia.
  - rewrite run_app. apply run_score_monotone.
Qed.

Lemma turn_progress env s inp :
  Inv s ->
  0 <= getProgress (session_q s) (session_phase s) <= 100 /\
  getProgress (session_q s) (session_phase s)
  <= getProgress (session_q (turn env s inp)) (session_phase (turn env s inp)).
Proof.
  intros HI.
  assert (Hbound : 0 <= getProgress (session_q s) (session_phase s) <= 100).
  { revert HI. unfold Inv, getProgress. rewrite QUESTIONS_length_5.
    destruct (session_phase s); cbn [Phase_eqb orb]; intros HI; try lia;
      destruct (Z.geb_spec (session_q s) 5); lia. }
  split; [exact Hbound |].
  destruct (turn_cases env s inp) as [-> | [r [Htry ->]]]; [lia |].
  revert HI Htry. destruct s as [p cq cs]. unfold Inv, sendMessage_try, bind. simpl.
  rewrite QUESTIONS_length_5. intros HI.
  destruct p.
  - destruct (generated env); [| discriminate]. intros [= <-].
    destruct HI as [-> _]. vm_compute. discriminate.
  - intros [= <-]. destruct HI as [-> _]. vm_compute. discriminate.
  - destruct (QUESTIONS_at cq); [| discriminate].
    destruct (isCorrect inp q0);
      (destruct (generated env); [| discriminate]); intros [= <-];
      unfold getProgress; cbn [Phase_eqb orb sessionOf respond session_q session_phase
                                 phase state q]; lia.
  - destruct (Z.ltb_spec (cq + 1) 5).
    + destruct (QUESTIONS_at (cq + 1)); [| discriminate]. intros [= <-].
      unfold getProgress.
      cbn [Phase_eqb orb sessionOf respond session_q session_phase phase state q].
      rewrite QUESTIONS_length_5.
      destruct (Z.geb_spec cq 5), (Z.geb_spec (cq + 1) 5); lia.
    + destruct (generated env); [| discriminate]. intros [= <-].
      unfold getProgress.
      cbn [Phase_eqb orb sessionOf respond session_q session_phase phase state q].
      rewrite QUESTIONS_length_5. destruct (Z.geb_spec cq 5); lia.
  - destruct (generated env); [| discriminate]. intros [= <-].
    unfold getProgress.
    cbn [Phase_eqb orb sessionOf respond session_q session_phase phase state q].
    rewrite QUESTIONS_length_5. destruct HI as [-> _]. simpl. lia.
  - intros [= <-]. unfold getProgress.
    cbn [Phase_eqb orb sessionOf respond session_q session_phase phase state q]. lia.
Qed.

Lemma run_progress turns : forall s,
  Inv s ->
  getProgress (session_q s) (session_phase s)
  <= getProgress (session_q (run turns s)) (session_phase (run turns s)).
Proof.
  induction turns as [| [env inp] rest IH]; intros s HI; simpl; [lia |].
  destruct (turn_Inv env s inp HI) as [HI' _].
  destruct (turn_progress env s inp HI) as [_ Hstep].
  specialize (IH _ HI'). lia.
Qed.

(** X4: along every sequence of turns from the initial session the
    progress percentage of the session lies between 0 and 100 and never
    goes back. *)
Theorem progress_monotone_and_bounded :
  forall turns more,
    let s := run turns initialSession in
    let s' := run (turns ++ more) initialSession in
    0 <= getProgress (session_q s) (session_phase s) <= 100 /\
    getProgress (session_q s) (session_phase s)
    <= getProgress (session_q s') (session_phase s').
Proof.
  intros turns more s s'.
  assert (HI : Inv s) by (apply run_Inv; unfold Inv; simpl; lia).
  split.
  - apply (turn_progress (fine "") s None HI).
  - unfold s'. rewrite run_app. apply run_progress. exact HI.
Qed.

Lemma sendMessage_try_shape gen p cq cs inp r :
  sendMessage_try gen p cq cs inp = Some r ->
  match input (ui r) with
  | input_multiple_choice =>
      phase r = ask /\ screen (ui r) = screen_question /\
      exists qd, QUESTIONS_at (q (state r)) = Some qd /\
                 text (ui r) = question qd /\
                 choices (ui r) = question_choices qd
  | input_none => choices (ui r) = []
  end.
Proof.
  unfold sendMessage_try, bind. destruct p.
  - destruct gen; [| discriminate]. intros [= <-]. reflexivity.
  - destruct (QUESTIONS_at 0) as [qd |] eqn:Hq; [| discriminate]. intros [= <-].
    simpl. repeat split. exists qd. repeat split. exact Hq.
  - destruct (QUESTIONS_at cq); [| discriminate].
    destruct (isCorrect inp _); (destruct gen; [| discriminate]);
      intros [= <-]; reflexivity.
  - destruct (cq + 1 <? QUESTIONS_length).
    + destruct (QUESTIONS_at (cq + 1)) as [qd |] eqn:Hq; [| discriminate].
      intros [= <-]. simpl. repeat split. exists qd. repeat split. exact Hq.
    + destruct gen; [| discriminate]. intros [= <-]. reflexivity.
  - destruct gen; [| discriminate]. intros [= <-]. reflexivity.
  - intros [= <-]. reflexivity.
Qed.

Lemma sendMessage_shape env p cq cs inp r :
  sendMessage env p cq cs inp = Resolved r ->
  match input (ui r) with
  | input_multiple_choice =>
      phase r = ask /\ screen (ui r) = screen_question /\
      exists qd, QUESTIONS_at (q (state r)) = Some qd /\
                 text (ui r) = question qd /\
                 choices (ui r) = question_choices qd
  | input_none => choices (ui r) = []
  end.
Proof.
  intros Hs. destruct (sendMessage_cases _ _ _ _ _ _ Hs) as [Htry | [_ ->]].
  - eapply sendMessage_try_shape; eauto.
  - reflexivity.
Qed.

(** X5: a response offers choices only when it asks a question: if its
    input is multiple choice, its phase is Ask, its screen is the
    question screen, and its text and choices are those of the stored
    question at the response's own question index; every other response,
    the fallback included, carries no choices. *)
Theorem response_choices_match_question :
  forall env currentPhase currentQ currentScore userInput r,
    sendMessage env currentPhase currentQ currentScore userInput = Resolved r ->
    match input (ui r) with
    | input_multiple_choice =>
        phase r = ask /\ screen (ui r) = screen_question /\
        exists qd, QUESTIONS_at (q (state r)) = Some qd /\
                   text (ui r) = question qd /\
                   choices (ui r) = question_choices qd
    | input_none => choices (ui r) = []
    end.
Proof.
  intros env p cq cs inp r Hs. apply (sendMessage_shape _ _ _ _ _ _ Hs).
Qed.

(** After the feedback on the first question the second one is asked. *)
Lemma response_choices_match_question_witness :
  exists r,
    sendMessage (fine "") evaluate 0 1 None = Resolved r /\
    phase r = ask /\
    List.length (choices (ui r)) = 4%nat.
Proof.
  destruct (sendMessage (fine "") evaluate 0 1 None) as [r |] eqn:Hs;
    [| discriminate].
  pose proof (response_choices_match_question _ _ _ _ _ _ Hs) as Hshape.
  exists r. split; [reflexivity |].
  vm_compute in Hs. injection Hs as <-.
  destruct Hshape as [Hp _]. split; [exact Hp | reflexivity].
Defined.

Lemma question_has_one_correct_choice i qd :
  QUESTIONS_at i = Some qd ->
  List.length (question_choices qd) = 4%nat /\
  exists right,
    In right (question_choices qd) /\
    choice_id right = correctAnswerId qd /\
    choice_label right = correctAnswerLabel qd /\
    forall other, In other (question_choices qd) ->
                  (choice_id other =? correctAnswerId qd)
                  = (choice_id other =? choice_id right) /\
                  (choice_id other = choice_id right -> other = right).
Proof.
  intros Hq.
  assert (Hi : 0 <= i < QUESTIONS_length).
  { destruct (Z.lt_ge_cases i 0) as [Hneg | Hpos].
    - rewrite QUESTIONS_at_outside in Hq by (left; lia). discriminate.
    - destruct (Z.lt_ge_cases i QUESTIONS_length) as [Hlt | Hge]; [lia |].
      rewrite QUESTIONS_at_outside in Hq by (right; lia). discriminate. }
  rewrite QUESTIONS_length_5 in Hi.
  assert (Hcases : i = 0 \/ i = 1 \/ i = 2 \/ i = 3 \/ i = 4) by lia.
  destruct Hcases as [-> | [-> | [-> | [-> | ->]]]];
    vm_compute in Hq; injection Hq as <-; (split; [reflexivity |]);
    [ exists (mkChoice 1 "Hello / Good day")
    | exists (mkChoice 2 "Merci")
    | exists (mkChoice 2 "Saying goodbye")
    | exists (mkChoice 1 "S'il vous plaît")
    | exists (mkChoice 2 "Excusez-moi") ];
    (split; [simpl; tauto |]); (split; [reflexivity |]); (split; [reflexivity |]);
    intros other Hin; simpl in Hin;
    repeat (destruct Hin as [<- | Hin]; [split; [reflexivity | simpl; congruence] |]);
    contradiction.
Qed.

(** X6: whenever a response asks a question, exactly one of the choices
    it displays is the right one: it carries the label recorded as the
    correct answer, and sending back the id of a displayed choice as the
    next turn (with the feedback generated) yields phase Evaluate with
    the score raised by one for that choice and unchanged for every
    other displayed choice. *)
Theorem one_displayed_choice_scores :
  forall env currentPhase currentQ currentScore userInput r,
    sendMessage env currentPhase currentQ currentScore userInput = Resolved r ->
    input (ui r) = input_multiple_choice ->
    exists right qd,
      QUESTIONS_at (q (state r)) = Some qd /\
      In right (choices (ui r)) /\
      choice_label right = correctAnswerLabel qd /\
      forall picked feedback,
        In picked (choices (ui r)) ->
        exists r',
          sendMessage (fine feedback) (phase r) (q (state r)) (score (state r))
            (Some (choice_id picked)) = Resolved r' /\
          phase r' = evaluate /\
          (picked = right -> score (state r') = score (state r) + 1) /\
          (picked <> right -> score (state r') = score (state r)).
Proof.
  intros env p cq cs inp r Hs Hinput.
  pose proof (sendMessage_shape _ _ _ _ _ _ Hs) as Hshape.
  rewrite Hinput in Hshape. destruct Hshape as [Hp [_ [qd [Hq [_ Hch]]]]].
  destruct (question_has_one_correct_choice _ _ Hq)
    as [_ [right [Hin [Hid [Hlabel Hothers]]]]].
  exists right, qd. rewrite Hch.
  split; [exact Hq |]. split; [exact Hin |]. split; [exact Hlabel |].
  intros picked feedback Hpicked.
  destruct (Hothers picked Hpicked) as [Heqb Hsame].
  unfold sendMessage, sendMessage_try, bind. rewrite Hp, Hq. simpl.
  rewrite Heqb.
  destruct (Z.eqb_spec (choice_id picked) (choice_id right)) as [Heq | Hne].
  - eexists. split; [reflexivity |]. split; [reflexivity |].
    split; [reflexivity |]. intros Hdiff. elim Hdiff. apply Hsame. exact Heq.
  - eexists. split; [reflexivity |]. split; [reflexivity |].
    split; [| reflexivity]. intros ->. elim Hne. reflexivity.
Qed.

(** The first question: of its four choices the second scores. *)
Lemma one_displayed_choice_scores_witness :
  exists r right qd,
    sendMessage (fine "") teach 0 0 None = Resolved r /\
    In right (choices (ui r)) /\
    choice_label right = correctAnswerLabel qd.
Proof.
  destruct (sendMessage (fine "") teach 0 0 None) as [r |] eqn:Hs; [| discriminate].
  destruct (one_displayed_choice_scores _ _ _ _ _ _ Hs)
    as [right [qd [_ [Hin [Hlabel _]]]]].
  - vm_compute in Hs. injection Hs as <-. reflexivity.
  - exists r, right, qd. split; [reflexivity | split; [exact Hin | exact Hlabel]].
Defined.

(** X7: a turn in phase Ask whose question index lies outside the table
    never scores and never advances: with or without generated text it
    returns the fallback, which repeats the request's phase, index and
    score. *)
Theorem ask_outside_table_falls_back :
  forall env currentQ currentScore userInput,
    currentQ < 0 \/ QUESTIONS_length <= currentQ ->
    clientReady env = true ->
    handlerCompletes env = true ->
    sendMessage env ask currentQ currentScore userInput
    = Resolved (fallback ask currentQ currentScore).
Proof.
  intros env cq cs inp Hout Hready Hdone.
  unfold sendMessage, sendMessage_try, bind.
  rewrite Hready, (QUESTIONS_at_outside cq Hout), Hdone. reflexivity.
Qed.

(** An answer sent for a sixth question. *)
Lemma ask_outside_table_falls_back_witness :
  sendMessage (fine "Bravo") ask 5 3 (Some 1) = Resolved (fallback ask 5 3).
Proof.
  apply ask_outside_table_falls_back.
  - right. rewrite QUESTIONS_length_5. lia.
  - reflexivity.
  - reflexivity.
Defined.

Lemma turn_select feedback i points answer qd :
  QUESTIONS_at i = Some qd ->
  turn (fine feedback) (mkSession ask i points) (Some answer)
  = mkSession evaluate i
      (if answer =? correctAnswerId qd then points + 1 else points).
Proof.
  intros Hq. unfold turn, sendMessage, sendMessage_try, bind.
  cbn [session_phase session_q session_score fine clientReady generated isCorrect].
  rewrite Hq. destruct (answer =? correctAnswerId qd); reflexivity.
Qed.

Lemma turn_acknowledge feedback i points :
  0 <= i < QUESTIONS_length ->
  turn (fine feedback) (mkSession evaluate i points) None
  = mkSession (if i + 1 <? QUESTIONS_length then ask else report) (i + 1) points.
Proof.
  intros Hi. unfold turn, sendMessage, sendMessage_try, bind.
  cbn [session_phase session_q session_score fine clientReady generated].
  destruct (Z.ltb_spec (i + 1) QUESTIONS_length) as [Hlt | Hge].
  - destruct (QUESTIONS_at_defined (i + 1)) as [qd ->]; [lia |]. reflexivity.
  - reflexivity.
Qed.

Lemma turn_report feedback i points :
  turn (fine feedback) (mkSession report i points) None = mkSession completed i points.
Proof. reflexivity. Qed.

Lemma run_cons env inp rest s :
  run ((env, inp) :: rest) s = run rest (turn env s inp).
Proof. reflexivity. Qed.

(** X8: a whole quiz counts the right answers: from the initial session,
    with every text generated, the lesson, the five questions each
    answered and acknowledged, and the report end in phase Completed
    with question index 5 and a score equal to the number of answers
    that are the correct option of their question. *)
Theorem whole_quiz_counts_correct_answers :
  forall feedback answers,
    List.length answers = List.length QUESTIONS ->
    run (QuizScreen.quizTurns (fine feedback) answers) initialSession
    = mkSession completed QUESTIONS_length
        (QuizScreen.correctAnswers answers QUESTIONS).
Proof.
  intros feedback answers Hlen.
  destruct answers as [| a0 [| a1 [| a2 [| a3 [| a4 [| a5 rest]]]]]];
    try discriminate Hlen.
  unfold QuizScreen.quizTurns. cbn [flat_map app].
  rewrite !run_cons.
  change (turn (fine feedback) initialSession None) with (mkSession teach 0 0).
  change (turn (fine feedback) (mkSession teach 0 0) None) with (mkSession ask 0 0).
  erewrite (turn_select feedback 0) by reflexivity.
  rewrite (turn_acknowledge feedback 0) by (rewrite QUESTIONS_length_5; lia).
  change (if 0 + 1 <? QUESTIONS_length then ask else report) with ask.
  change (0 + 1) with 1.
  erewrite (turn_select feedback 1) by reflexivity.
  rewrite (turn_acknowledge feedback 1) by (rewrite QUESTIONS_length_5; lia).
  change (if 1 + 1 <? QUESTIONS_length then ask else report) with ask.
  change (1 + 1) with 2.
  erewrite (turn_select feedback 2) by reflexivity.
  rewrite (turn_acknowledge feedback 2) by (rewrite QUESTIONS_length_5; lia).
  change (if 2 + 1 <? QUESTIONS_length then ask else report) with ask.
  change (2 + 1) with 3.
  erewrite (turn_select feedback 3) by reflexivity.
  rewrite (turn_acknowledge feedback 3) by (rewrite QUESTIONS_length_5; lia).
  change (if 3 + 1 <? QUESTIONS_length then ask else report) with ask.
  change (3 + 1) with 4.
  erewrite (turn_select feedback 4) by reflexivity.
  rewrite (turn_acknowledge feedback 4) by (rewrite QUESTIONS_length_5; lia).
  change (if 4 + 1 <? QUESTIONS_length then ask else report) with report.
  change (4 + 1) with 5.
  rewrite turn_report. cbn [run]. rewrite QUESTIONS_length_5.
  f_equal. unfold QuizScreen.correctAnswers, QUESTIONS. cbn [correctAnswerId].
  destruct (a0 =? 1), (a1 =? 2), (a2 =? 2), (a3 =? 1), (a4 =? 2); reflexivity.
Qed.

(** Three right answers out of five. *)
Lemma whole_quiz_counts_correct_answers_witness :
  run (QuizScreen.quizTurns (fine "...") [1; 0; 2; 3; 2]) initialSession
  = mkSession completed 5 3.
Proof.
  apply (whole_quiz_counts_correct_answers "..." [1; 0; 2; 3; 2]). reflexivity.
Defined.

End QuizService_more.

(** * Further properties of the quiz component *)
Section QuizApp_more.
Import QuizService QuizApp QuizScreen.

Lemma processTutorTurn_refs env app p cq cs inp :
  refs (processTutorTurn env app p cq cs inp) = turn env (mkSession p cq cs) inp \/
  (sendMessage env p cq cs inp = Rejected /\
   refs (processTutorTurn env app p cq cs inp) = refs app).
Proof.
  unfold processTutorTurn, turn. simpl.
  destruct (sendMessage env p cq cs inp); [left | right; split]; reflexivity.
Qed.

Lemma processTutorTurn_Inv env app p cq cs inp :
  Inv (mkSession p cq cs) -> Inv (refs app) ->
  Inv (refs (processTutorTurn env app p cq cs inp)).
Proof.
  intros Hreq Happ.
  destruct (processTutorTurn_refs env app p cq cs inp) as [-> | [_ ->]].
  - apply turn_Inv. exact Hreq.
  - exact Happ.
Qed.

Lemma reachable_Inv app : reachable app -> Inv (refs app).
Proof.
  induction 1 as [| env | app choice Hr IH | env app actionInput Hr IH].
  - unfold Inv. simpl. lia.
  - apply processTutorTurn_Inv; unfold Inv; simpl; lia.
  - exact IH.
  - unfold handleAction. destruct (tutorResponse app); [| exact IH].
    revert IH. unfold Inv at 1. unfold refs at 1. simpl.
    destruct (currentPhaseRef app) eqn:Hphase; rewrite ?QUESTIONS_length_5; intros HI.
    + apply processTutorTurn_Inv; unfold Inv, refs; simpl; rewrite ?Hphase; lia.
    + apply processTutorTurn_Inv; unfold Inv, refs; simpl;
        rewrite ?Hphase, ?QUESTIONS_length_5; lia.
    + destruct actionInput.
      * apply processTutorTurn_Inv; unfold Inv, refs; simpl;
          rewrite ?Hphase, ?QUESTIONS_length_5; lia.
      * unfold Inv, refs. simpl. rewrite Hphase, QUESTIONS_length_5. exact HI.
    + destruct (Z.ltb_spec (currentQRef app + 1) 5);
        apply processTutorTurn_Inv; unfold Inv, refs; simpl;
        rewrite ?Hphase, ?QUESTIONS_length_5; lia.
    + apply processTutorTurn_Inv; unfold Inv, refs; simpl;
        rewrite ?Hphase, ?QUESTIONS_length_5; lia.
    + apply processTutorTurn_Inv; unfold Inv, refs; simpl; lia.
Qed.

(** X9: in every state the component can reach, whatever is passed to
    [handleAction] and whatever the generator does, the question index
    ref lies between 0 and 5 and the score ref between 0 and 5, the score
    being at most the question index plus one. *)
Theorem component_refs_bounded :
  forall app,
    reachable app ->
    0 <= currentQRef app <= 5 /\
    0 <= currentScoreRef app <= 5 /\
    currentScoreRef app <= currentQRef app + 1.
Proof.
  intros app Hr. pose proof (reachable_Inv app Hr) as HI.
  destruct (Inv_bounds _ HI) as [Hq [Hs _]].
  pose proof (Inv_score_bound _ HI) as Hb.
  rewrite QUESTIONS_length_5 in *. unfold refs in *. simpl in *. lia.
Qed.

(** Two clicks after the lesson, the second with the right option. *)
Lemma component_refs_bounded_witness :
  let app := handleAction (fine "") (handleAction (fine "") (mount (fine "")) None)
               (Some 2) in
  refs app = mkSession evaluate 1 1 /\ currentScoreRef app <= currentQRef app + 1.
Proof.
  intros app. split; [reflexivity |].
  destruct (component_refs_bounded app) as [_ [_ H]].
  - repeat apply reach_action. apply reach_mount.
  - exact H.
Defined.

(** X10: a click in phase Completed starts over like a fresh mount: the
    refs, the response on display and the error after it are those of
    the mount effect run in the same environment. *)
Theorem restart_is_a_fresh_mount :
  forall env app actionInput,
    tutorResponse app <> None ->
    currentPhaseRef app = completed ->
    let app' := handleAction env app actionInput in
    refs app' = refs (mount env) /\
    tutorResponse app' = tutorResponse (mount env) /\
    error app' = error (mount env).
Proof.
  intros env app inp Hloaded Hphase. unfold handleAction.
  destruct (tutorResponse app); [| congruence].
  rewrite Hphase. unfold mount, processTutorTurn. simpl.
  destruct (sendMessage env intro 0 0 None); repeat split.
Qed.

(** The component after the report has been acknowledged. *)
Lemma restart_is_a_fresh_mount_witness :
  let finished :=
    mkApp (Some (respond completed 5 3 screen_final "Bravo" [] input_none))
      false None None completed 5 3 in
  refs (handleAction (fine "Bonjour") finished None) = mkSession teach 0 0.
Proof.
  intros finished.
  destruct (restart_is_a_fresh_mount (fine "Bonjour") finished None) as [Hrefs _].
  - discriminate.
  - reflexivity.
  - rewrite Hrefs. reflexivity.
Defined.

Lemma sendMessage_without_input_keeps_score env p cq cs r :
  sendMessage env p cq cs None = Resolved r -> score (state r) = cs.
Proof.
  intros Hs. destruct (sendMessage_cases _ _ _ _ _ _ Hs) as [Htry | [_ ->]].
  - destruct (sendMessage_try_score _ _ _ _ _ _ Htry) as [H | [_ [_ [_ [qd [_ H]]]]]];
      [exact H | discriminate].
  - reflexivity.
Qed.

Lemma processTutorTurn_inStep env app p cq inp :
  inStep app ->
  (forall r, sendMessage env p cq 0 inp = Resolved r -> score (state r) = 0) ->
  inStep (processTutorTurn env app p cq 0 inp).
Proof.
  intros [Hscore Hshown] Hkeeps. unfold processTutorTurn, inStep.
  destruct (sendMessage env p cq 0 inp) as [r |]; simpl.
  - split; [apply Hkeeps; reflexivity |]. intros r' [= <-]. reflexivity.
  - split; [exact Hscore | exact Hshown].
Qed.

Lemma buttonAction_with_choice app chosen :
  inStep app -> buttonAction app = Some (Some chosen) -> currentPhaseRef app = ask.
Proof.
  intros [_ Hshown]. unfold buttonAction.
  destruct (loading app); [discriminate |].
  destruct (error app); [discriminate |].
  destruct (tutorResponse app) as [r |]; [| discriminate].
  specialize (Hshown r eq_refl).
  destruct (phase r); try discriminate. intros _. symmetry. exact Hshown.
Qed.

Lemma driven_inStep app : driven app -> inStep app.
Proof.
  induction 1 as [| env | app choice Hd IH Hin | env app actionInput Hd IH Hbutton].
  - split; [reflexivity | discriminate].
  - apply processTutorTurn_inStep.
    + split; [reflexivity | discriminate].
    + apply sendMessage_without_input_keeps_score.
  - exact IH.
  - pose proof IH as [Hscore Hshown].
    unfold handleAction. destruct (tutorResponse app) eqn:Hloaded; [| exact IH].
    destruct (currentPhaseRef app) eqn:Hphase.
    + rewrite Hscore. apply processTutorTurn_inStep; [exact IH |].
      intros r Hs. destruct (sendMessage_cases _ _ _ _ _ _ Hs) as [Htry | [_ ->]];
        [| reflexivity].
      destruct (sendMessage_try_score _ _ _ _ _ _ Htry) as [H | [_ [H _]]];
        [exact H | discriminate].
    + destruct actionInput as [chosen |].
      * pose proof (buttonAction_with_choice app chosen IH Hbutton). congruence.
      * rewrite Hscore. apply processTutorTurn_inStep; [exact IH |].
        apply sendMessage_without_input_keeps_score.
    + destruct actionInput as [chosen |].
      * rewrite Hscore. apply processTutorTurn_inStep; [exact IH |].
        intros r. apply evaluate_turn_keeps_score.
      * split; simpl; [exact Hscore | rewrite Hloaded, Hphase; exact Hshown].
    + destruct actionInput as [chosen |].
      * pose proof (buttonAction_with_choice app chosen IH Hbutton). congruence.
      * rewrite Hscore.
        destruct (currentQRef app + 1 <? 5);
          (apply processTutorTurn_inStep; [exact IH |]);
          apply sendMessage_without_input_keeps_score.
    + rewrite Hscore. apply processTutorTurn_inStep; [exact IH |].
      intros r Hs. destruct (sendMessage_cases _ _ _ _ _ _ Hs) as [Htry | [_ ->]];
        [| reflexivity].
      destruct (sendMessage_try_score _ _ _ _ _ _ Htry) as [H | [_ [H _]]];
        [exact H | discriminate].
    + apply processTutorTurn_inStep.
      * split; [reflexivity | discriminate].
      * apply sendMessage_without_input_keeps_score.
Qed.

(** X11: driven through the controls on display (the button of the
    phase, the choice buttons, Retry), the component never counts a
    point: the score ref is 0 in every state so reached.  The selected
    choice is passed on only in phase Ask, where the handler asks the
    service for phase Evaluate, whose branch does not look at it. *)
Theorem clicks_never_score :
  forall app, driven app -> currentScoreRef app = 0.
Proof.
  intros app Hd. apply (driven_inStep app Hd).
Qed.

(** A question answered with its correct option through the screen. *)
Lemma clicks_never_score_witness :
  let shown := handleAction (fine "") (mount failing) None in
  let chosen := setSelectedChoiceId 1 shown in
  let answered := handleAction (fine "Bravo") chosen (Some 1) in
  refs shown = mkSession ask 0 0 /\
  buttonAction chosen = Some (Some 1) /\
  refs answered = mkSession ask 1 0.
Proof.
  intros shown chosen answered.
  assert (Hd : driven answered).
  { apply driven_button; [| reflexivity].
    apply (driven_choice shown (mkChoice 1 "Hello / Good day")); [| simpl; tauto].
    apply driven_button; [apply driven_mount | reflexivity]. }
  pose proof (clicks_never_score answered Hd) as Hscore.
  split; [reflexivity |]. split; [reflexivity |].
  unfold refs. rewrite Hscore. reflexivity.
Defined.

(** X12: with an error on display while the phase ref is Ask, Retry is
    the only control, no choice can be selected, and Retry changes
    nothing but the error text: the state it yields is again such a
    state, and every further Retry returns it unchanged. *)
Theorem retry_in_ask_is_stuck :
  forall env app message,
    loading app = false ->
    error app = Some message ->
    tutorResponse app <> None ->
    currentPhaseRef app = ask ->
    let app' := handleAction env app None in
    buttonAction app = Some None /\
    shownChoices app = [] /\
    app' = setError "Please select an answer." app /\
    buttonAction app' = Some None /\
    shownChoices app' = [] /\
    forall env', handleAction env' app' None = app'.
Proof.
  intros env app message Hload Herr Hloaded Hphase.
  assert (Hstep : forall e a, tutorResponse a <> None -> currentPhaseRef a = ask ->
                    handleAction e a None = setError "Please select an answer." a).
  { intros e a Hl Hp. unfold handleAction.
    destruct (tutorResponse a); [| congruence]. rewrite Hp. reflexivity. }
  cbv zeta. rewrite (Hstep env app Hloaded Hphase).
  unfold buttonAction, shownChoices. simpl. rewrite Hload, Herr.
  repeat split.
  intros env'. rewrite Hstep; [reflexivity | exact Hloaded | exact Hphase].
Qed.

(** A submitted answer whose request was rejected. *)
Lemma retry_in_ask_is_stuck_witness :
  let shown := handleAction (fine "") (mount failing) None in
  let rejected :=
    handleAction (mkTurnEnv false None true) (setSelectedChoiceId 1 shown) (Some 1) in
  driven rejected /\
  handleAction (fine "") rejected None = setError "Please select an answer." rejected.
Proof.
  intros shown rejected. split.
  - apply driven_button; [| reflexivity].
    apply (driven_choice shown (mkChoice 1 "Hello / Good day")); [| simpl; tauto].
    apply driven_button; [apply driven_mount | reflexivity].
  - assert (Hloaded : tutorResponse rejected <> None) by discriminate.
    destruct (retry_in_ask_is_stuck (fine "") rejected
                "Failed to load tutor content. Please try again."
                eq_refl eq_refl Hloaded eq_refl)
      as [_ [_ [Hstuck _]]].
    exact Hstuck.
Defined.

End QuizApp_more.

(** * Further properties of the answer clean-up *)
Section CleanJson_more.
Import JsString JsText GeminiService.

Lemma length_app a b :
  String.length (a ++ b) = (String.length a + String.length b)%nat.
Proof. induction a as [| c a IH]; simpl; [reflexivity | rewrite IH; reflexivity]. Qed.

Lemma substring_skip a t m :
  String.substring (String.length a) m (a ++ t) = String.substring 0 m t.
Proof. induction a as [| c a IH]; simpl; [reflexivity | exact IH]. Qed.

Lemma substring_take b c : String.substring 0 (String.length b) (b ++ c) = b.
Proof.
  induction b as [| ch b IH]; simpl.
  - destruct c; reflexivity.
  - rewrite IH. reflexivity.
Qed.

Lemma substring_middle a b c :
  substring (a ++ b ++ c) (Z.of_nat (String.length a))
    (Z.of_nat (String.length a + String.length b)) = b.
Proof.
  unfold substring. rewrite !length_app. cbv zeta.
  set (la := String.length a). set (lb := String.length b). set (lc := String.length c).
  replace (Z.min (Z.max 0 (Z.min (Z.of_nat la) (Z.of_nat (la + (lb + lc)))))
                 (Z.max 0 (Z.min (Z.of_nat (la + lb)) (Z.of_nat (la + (lb + lc))))))
    with (Z.of_nat la) by lia.
  replace (Z.max (Z.max 0 (Z.min (Z.of_nat la) (Z.of_nat (la + (lb + lc)))))
                 (Z.max 0 (Z.min (Z.of_nat (la + lb)) (Z.of_nat (la + (lb + lc))))))
    with (Z.of_nat (la + lb)) by lia.
  replace (Z.of_nat (la + lb) - Z.of_nat la) with (Z.of_nat lb) by lia.
  rewrite !Nat2Z.id. unfold la, lb. rewrite substring_skip. apply substring_take.
Qed.

Lemma lastIndexOf_from_cons c rest pat i :
  lastIndexOf_from (String c rest) pat i
  = Z.max (if String.prefix pat (String c rest) then i else -1)
      (lastIndexOf_from rest pat (i + 1)).
Proof. reflexivity. Qed.

Lemma lastIndexOf_from_closing pre : forall i,
  0 <= i ->
  lastIndexOf_from (pre ++ "```") "```" i = i + Z.of_nat (String.length pre).
Proof.
  induction pre as [| c pre IH]; intros i Hi.
  - cbn. lia.
  - change (String c pre ++ "```") with (String c (pre ++ "```")).
    rewrite lastIndexOf_from_cons, IH by lia.
    change (String.length (String c pre)) with (S (String.length pre)).
    destruct (String.prefix "```" (String c (pre ++ "```"))); lia.
Qed.

Lemma lastIndexOf_from_absent s pat : forall i,
  includes s pat = false -> lastIndexOf_from s pat i = -1.
Proof.
  induction s as [| c rest IH]; intros i.
  - destruct pat; simpl; [discriminate | reflexivity].
  - change (includes (String c rest) pat)
      with (String.prefix pat (String c rest) || includes rest pat).
    intros H. apply orb_false_iff in H as [Hhere Hrest].
    rewrite lastIndexOf_from_cons, Hhere, (IH (i + 1) Hrest). reflexivity.
Qed.

Lemma startsWith_app pre t : startsWith (pre ++ t) pre = true.
Proof.
  unfold startsWith. induction pre as [| c pre IH]; simpl.
  - destruct t; reflexivity.
  - destruct (ascii_dec c c); [exact IH | congruence].
Qed.

Lemma isEmpty_app_closing a : isEmpty (a ++ "```") = false.
Proof. destruct a; reflexivity. Qed.

Lemma trimEnd_closing a : trimEnd (a ++ "```") = a ++ "```".
Proof.
  induction a as [| c a IH].
  - reflexivity.
  - change (String c a ++ "```") with (String c (a ++ "```")).
    cbn [trimEnd]. rewrite IH, isEmpty_app_closing, andb_false_r. reflexivity.
Qed.

Lemma trim_jsonFenced body : trim (jsonFenced body) = jsonFenced body.
Proof.
  unfold trim, jsonFenced.
  change (trimStart ("```json" ++ body ++ "```")) with ("```json" ++ body ++ "```").
  change ("```json" ++ body ++ "```") with (("```json" ++ body) ++ "```").
  apply trimEnd_closing.
Qed.

Lemma trim_plainFenced body : trim (plainFenced body) = plainFenced body.
Proof.
  unfold trim, plainFenced.
  change (trimStart ("```" ++ body ++ "```")) with ("```" ++ body ++ "```").
  change ("```" ++ body ++ "```") with (("```" ++ body) ++ "```").
  apply trimEnd_closing.
Qed.

Lemma cleanJson_jsonFenced body : cleanJson (jsonFenced body) = trim body.
Proof.
  unfold cleanJson, jsonFenced.
  rewrite (startsWith_app "```json" (body ++ "```")). f_equal.
  assert (Hlast : lastIndexOf ("```json" ++ body ++ "```") "```"
                  = Z.of_nat (String.length "```json" + String.length body)).
  { unfold lastIndexOf.
    change ("```json" ++ body ++ "```") with (("```json" ++ body) ++ "```").
    rewrite lastIndexOf_from_closing by lia. rewrite length_app. lia. }
  rewrite Hlast.
  change 7 with (Z.of_nat (String.length "```json")).
  apply substring_middle.
Qed.

Lemma cleanJson_plainFenced body :
  startsWith (plainFenced body) "```json" = false ->
  cleanJson (plainFenced body) = trim body.
Proof.
  unfold cleanJson. intros ->. unfold plainFenced.
  rewrite (startsWith_app "```" (body ++ "```")). f_equal.
  assert (Hlast : lastIndexOf ("```" ++ body ++ "```") "```"
                  = Z.of_nat (String.length "```" + String.length body)).
  { unfold lastIndexOf.
    change ("```" ++ body ++ "```") with (("```" ++ body) ++ "```").
    rewrite lastIndexOf_from_closing by lia. rewrite length_app. lia. }
  rewrite Hlast.
  change 3 with (Z.of_nat (String.length "```")).
  apply substring_middle.
Qed.

(** X13: an answer wrapped in a code fence is parsed without it: for a
    text that opens with the json fence and ends with the closing fence,
    and for one between two plain fences, what is handed to the parser is
    exactly the body between the fences, trimmed, whatever the body
    contains. *)
Theorem fenced_answer_is_unwrapped :
  forall JSON_parse body,
    cleanJson (jsonFenced body) = trim body
    /\ callGemini_try JSON_parse (Some (jsonFenced body)) = JSON_parse (trim body)
    /\ (startsWith (plainFenced body) "```json" = false ->
        cleanJson (plainFenced body) = trim body /\
        callGemini_try JSON_parse (Some (plainFenced body)) = JSON_parse (trim body)).
Proof.
  intros JSON_parse body. split; [apply cleanJson_jsonFenced |]. split.
  - unfold callGemini_try. simpl option_map. cbv iota.
    rewrite trim_jsonFenced, cleanJson_jsonFenced. reflexivity.
  - intros Hplain. split; [apply cleanJson_plainFenced; exact Hplain |].
    unfold callGemini_try. simpl option_map. cbv iota.
    rewrite trim_plainFenced, cleanJson_plainFenced by exact Hplain. reflexivity.
Qed.

(** The farewell answer sent between plain fences, on lines of its own. *)
Lemma fenced_answer_is_unwrapped_witness :
  let newline := String (ascii_of_nat 10) EmptyString in
  cleanJson (plainFenced (newline ++ Scenario.farewell_text ++ newline))
  = Scenario.farewell_text.
Proof.
  intros newline.
  destruct (fenced_answer_is_unwrapped
              (Scenario.reads Scenario.farewell_text Scenario.farewell)
              (newline ++ Scenario.farewell_text ++ newline)) as [_ [_ Hplain]].
  destruct Hplain as [Hclean _]; [reflexivity |].
  rewrite Hclean. reflexivity.
Defined.

(** X14: an answer that opens the json fence and never closes it loses
    its body: when no further fence occurs in it, the clean-up keeps the
    seven characters of the opening fence alone, so it is this marker
    that reaches the parser. *)
Theorem unclosed_fence_drops_the_body :
  forall body,
    includes body "```" = false ->
    cleanJson ("```json" ++ body) = "```json".
Proof.
  intros body Hnone. unfold cleanJson.
  rewrite (startsWith_app "```json" body).
  assert (Hlast : lastIndexOf ("```json" ++ body) "```" = 0).
  { unfold lastIndexOf.
    change ("```json" ++ body)
      with (String "`" (String "`" (String "`" (String "j" (String "s"
             (String "o" (String "n" body))))))).
    rewrite !lastIndexOf_from_cons.
    rewrite (lastIndexOf_from_absent body "```" _ Hnone).
    cbn [String.prefix]. cbn. reflexivity. }
  rewrite Hlast. unfold substring. cbv zeta.
  change (String.length ("```json" ++ body)) with (7 + String.length body)%nat.
  replace (Z.min (Z.max 0 (Z.min 7 (Z.of_nat (7 + String.length body))))
                 (Z.max 0 (Z.min 0 (Z.of_nat (7 + String.length body)))))
    with 0 by lia.
  replace (Z.max (Z.max 0 (Z.min 7 (Z.of_nat (7 + String.length body))))
                 (Z.max 0 (Z.min 0 (Z.of_nat (7 + String.length body)))))
    with 7 by lia.
  change (Z.to_nat 0) with 0%nat.
  change (Z.to_nat (7 - 0)) with (String.length "```json").
  rewrite substring_take. reflexivity.
Qed.

(** The farewell answer after an opening fence only. *)
Lemma unclosed_fence_drops_the_body_witness :
  cleanJson ("```json" ++ Scenario.farewell_text) = "```json".
Proof.
  apply (unclosed_fence_drops_the_body Scenario.farewell_text). reflexivity.
Defined.

End CleanJson_more.

(** * Further properties of the command variant *)
Section Command_more.
Import JsString JsText GeminiService TutorApp.

Variable JSON_parse : string -> string + PhaseResponse.
Variable TOTAL_QUESTIONS : Z.

Lemma trim_allWhiteSpace s : allWhiteSpace s = true -> trim s = EmptyString.
Proof.
  unfold trim. induction s as [| c rest IH]; simpl; [reflexivity |].
  intros H. apply andb_true_iff in H as [-> Hrest]. apply IH. exact Hrest.
Qed.

(** X15: while a turn is in flight Continue, a submitted command and
    Exit do nothing and send nothing; a command text that is empty or
    white space only is never sent either. *)
Theorem idle_handlers_send_nothing :
  forall remote app,
    (isLoading app = true ->
     handleContinue JSON_parse TOTAL_QUESTIONS remote app = (remote, app) /\
     handleCommandSubmit JSON_parse TOTAL_QUESTIONS remote app = (remote, app) /\
     handleExit JSON_parse TOTAL_QUESTIONS remote app = (remote, app))
    /\ (allWhiteSpace (learnerCommandInput app) = true ->
        handleCommandSubmit JSON_parse TOTAL_QUESTIONS remote app = (remote, app)).
Proof.
  intros remote app. split.
  - intros Hload. unfold handleContinue, handleCommandSubmit, handleExit.
    rewrite Hload. repeat split.
  - intros Hblank. unfold handleCommandSubmit.
    rewrite (trim_allWhiteSpace _ Hblank). simpl. rewrite orb_true_r. reflexivity.
Qed.

(** X16: in phase Paused a typed continue or resume, in any letter case
    and with white space around it, does what the Continue button does:
    the same request with the command resume is made and the same state
    results, the command field being emptied. *)
Theorem typed_continue_is_the_button :
  forall remote app,
    isLoading app = false ->
    currentPhase (tutorStateRef app) = paused ->
    toLowerCase (trim (learnerCommandInput app)) = "continue" \/
    toLowerCase (trim (learnerCommandInput app)) = "resume" ->
    handleCommandSubmit JSON_parse TOTAL_QUESTIONS remote app
    = (fst (handleContinue JSON_parse TOTAL_QUESTIONS remote app),
       setLearnerCommandInput ""
         (snd (handleContinue JSON_parse TOTAL_QUESTIONS remote app))).
Proof.
  intros remote app Hload Hphase Hword.
  assert (Hne : isEmpty (trim (learnerCommandInput app)) = false).
  { rewrite <- isEmpty_toLowerCase. destruct Hword as [-> | ->]; reflexivity. }
  assert (Hcmd : submitCommand (currentPhase (tutorStateRef app)) (learnerCommandInput app)
                 = "resume").
  { unfold submitCommand. rewrite Hphase. destruct Hword as [-> | ->]; reflexivity. }
  unfold handleCommandSubmit, handleContinue.
  rewrite Hload, Hne, Hcmd, Hphase. simpl.
  destruct (fetchGeminiResponse _ _ _ _ _ _). reflexivity.
Qed.

Lemma fetch_commits remote app prev submit r :
  fst (callGemini JSON_parse TOTAL_QUESTIONS remote
         (currentPhase (tutorStateRef app))
         (mkState (ref_question_index (tutorStateRef app)) (ref_score (tutorStateRef app)))
         prev (selectedOptionLabel (tutorStateRef app)) submit) = inr r ->
  let app' := snd (fetchGeminiResponse JSON_parse TOTAL_QUESTIONS remote app prev submit) in
  tutorStateRef app'
  = mkTutorRef (question_index (state r)) (score (state r)) (phase r)
      (correct_answer_id r) None /\
  isLoading app' = false.
Proof.
  intros Hr. unfold fetchGeminiResponse.
  destruct (callGemini _ _ _ _ _ _ _ _) as [result remote']. simpl in Hr. subst result.
  split; reflexivity.
Qed.

(** X17: an answer for phase Ask that names no correct option makes
    every pick wrong: once such an answer has been committed, a click on
    any option leaves the score as the answer gave it, and the feedback
    is requested for an incorrect answer in phase Evaluate with the
    question index raised by one. *)
Theorem pick_without_correct_id_is_wrong :
  forall remote app prev submit r,
    fst (callGemini JSON_parse TOTAL_QUESTIONS remote
           (currentPhase (tutorStateRef app))
           (mkState (ref_question_index (tutorStateRef app))
              (ref_score (tutorStateRef app)))
           prev (selectedOptionLabel (tutorStateRef app)) submit) = inr r ->
    phase r = ask ->
    correct_answer_id r = None ->
    let shown := fetchGeminiResponse JSON_parse TOTAL_QUESTIONS remote app prev submit in
    forall picked label,
      handleOptionSelect JSON_parse TOTAL_QUESTIONS (fst shown) (snd shown) picked label
      = fetchGeminiResponse JSON_parse TOTAL_QUESTIONS (fst shown)
          (setTutorStateRef
             (mkTutorRef (question_index (state r) + 1) (score (state r)) evaluate
                None (Some label))
             (snd shown))
          (Some false) None.
Proof.
  intros remote app prev submit r Hr Hphase Hnone shown picked label.
  destruct (fetch_commits remote app prev submit r Hr) as [Href Hload].
  fold shown in Href, Hload.
  unfold handleOptionSelect. rewrite Href, Hload, Hphase, Hnone. reflexivity.
Qed.

Lemma callGemini_try_blank text :
  match text with
  | None => True
  | Some t => allWhiteSpace t = true
  end ->
  callGemini_try JSON_parse text = inl "Gemini response was empty or malformed.".
Proof.
  unfold callGemini_try. destruct text as [t |]; [| reflexivity].
  intros Hblank. simpl. rewrite (trim_allWhiteSpace t Hblank). reflexivity.
Qed.

(** X18: an answer without text, or with white space only, is an error
    and is never parsed: the prompt has been sent, the call has counted,
    and the caller gets the general failure message. *)
Theorem blank_answer_is_an_error :
  forall remote currentPhase currentState prev label learnerInput text,
    outcomes remote (calls remote) = GenerateReturns text ->
    match text with
    | None => True
    | Some t => allWhiteSpace t = true
    end ->
    callGemini JSON_parse TOTAL_QUESTIONS remote currentPhase currentState
      prev label learnerInput
    = (inl "Failed to get response from AI tutor. Please try again.",
       mkRemote (outcomes remote) (S (calls remote))
         (sent remote ++ [buildGeminiPrompt currentPhase currentState prev label
                            learnerInput TOTAL_QUESTIONS])%list).
Proof.
  intros remote currentPhase currentState prev label learnerInput text Hout Hblank.
  unfold callGemini. rewrite Hout, (callGemini_try_blank text Hblank). reflexivity.
Qed.

Lemma errorMessage_friendly message : In (errorMessage message) friendlyMessages.
Proof.
  unfold errorMessage, friendlyMessages.
  destruct (includes message "400" || includes message "bad request");
    [simpl; tauto |].
  destruct (includes message "500" || includes message "internal server error");
    [simpl; tauto |].
  destruct (includes message "429" || includes message "rate limit");
    simpl; tauto.
Qed.

(** X19: once the client object exists, the text of a failure never
    reaches the caller: whether the request throws, the answer is empty
    or the parser rejects it, the error thrown carries one of the four
    messages worded in [callGemini]. *)
Theorem failure_message_is_reworded :
  forall remote currentPhase currentState prev label learnerInput message,
    (forall raw, outcomes remote (calls remote) <> ClientThrows raw) ->
    fst (callGemini JSON_parse TOTAL_QUESTIONS remote currentPhase currentState
           prev label learnerInput) = inl message ->
    In message friendlyMessages.
Proof.
  intros remote currentPhase currentState prev label learnerInput message Hclient.
  unfold callGemini.
  destruct (outcomes remote (calls remote)) as [raw | raw | text]; simpl.
  - elim (Hclient raw). reflexivity.
  - intros [= <-]. apply errorMessage_friendly.
  - destruct (callGemini_try JSON_parse text) as [raw |]; [| discriminate].
    intros [= <-]. apply errorMessage_friendly.
Qed.

Lemma fetch_counts remote app prev submit :
  let out := fetchGeminiResponse JSON_parse TOTAL_QUESTIONS remote app prev submit in
  calls (fst out) = S (calls remote) /\ isLoading (snd out) = false.
Proof.
  unfold fetchGeminiResponse.
  pose proof (callGemini_calls JSON_parse TOTAL_QUESTIONS remote
                (currentPhase (tutorStateRef app))
                (mkState (ref_question_index (tutorStateRef app))
                   (ref_score (tutorStateRef app)))
                prev (selectedOptionLabel (tutorStateRef app)) submit) as [Hcalls _].
  destruct (callGemini _ _ _ _ _ _ _ _) as [[m | r] remote']; simpl in *;
    split; [exact Hcalls | reflexivity | exact Hcalls | reflexivity].
Qed.

(** X20: every event makes at most one call: an option click, Continue,
    a submitted command and Exit each either return with the remote side
    and the component untouched, or make exactly one call and leave the
    component with no turn in flight. *)
Theorem one_call_per_event :
  forall remote app picked label,
    let settled (out : Remote * App) :=
      out = (remote, app) \/
      (calls (fst out) = S (calls remote) /\ isLoading (snd out) = false) in
    settled (handleOptionSelect JSON_parse TOTAL_QUESTIONS remote app picked label) /\
    settled (handleContinue JSON_parse TOTAL_QUESTIONS remote app) /\
    settled (handleCommandSubmit JSON_parse TOTAL_QUESTIONS remote app) /\
    settled (handleExit JSON_parse TOTAL_QUESTIONS remote app).
Proof.
  intros remote app picked label settled. unfold settled.
  repeat split.
  - unfold handleOptionSelect.
    destruct (negb (Phase_eqb (currentPhase (tutorStateRef app)) ask) || isLoading app);
      [left; reflexivity | right; apply fetch_counts].
  - unfold handleContinue. destruct (isLoading app); [left; reflexivity | right].
    destruct (currentPhase (tutorStateRef app));
      try destruct (ref_question_index (tutorStateRef app) <? TOTAL_QUESTIONS);
      apply fetch_counts.
  - unfold handleCommandSubmit.
    destruct (isLoading app || isEmpty (trim (learnerCommandInput app)));
      [left; reflexivity | right].
    pose proof (fetch_counts remote app None
                  (Some (submitCommand (currentPhase (tutorStateRef app))
                           (learnerCommandInput app)))) as Hf.
    cbv zeta in Hf. destruct (fetchGeminiResponse _ _ _ _ _ _). exact Hf.
  - unfold handleExit. destruct (isLoading app); [left; reflexivity | right].
    pose proof (fetch_counts remote app None (Some "exit")) as Hf.
    cbv zeta in Hf. destruct (fetchGeminiResponse _ _ _ _ _ _). exact Hf.
Qed.

End Command_more.

(** * Concrete runs of the further properties *)
Section Command_more_runs.
Import JsString JsText GeminiService TutorApp Scenario.

(** Before the mount effect has finished every handler is idle; a
    command of blanks is not sent. *)
Lemma idle_handlers_send_nothing_witness :
  handleExit (reads farewell_text farewell) 5 (replying farewell_text) initialApp
  = (replying farewell_text, initialApp)
  /\ handleCommandSubmit (reads farewell_text farewell) 5 (replying farewell_text)
       (setLearnerCommandInput "   " asking)
     = (replying farewell_text, setLearnerCommandInput "   " asking).
Proof.
  destruct (idle_handlers_send_nothing (reads farewell_text farewell) 5
              (replying farewell_text) initialApp) as [Hidle _].
  destruct (Hidle eq_refl) as [_ [_ Hexit]].
  destruct (idle_handlers_send_nothing (reads farewell_text farewell) 5
              (replying farewell_text) (setLearnerCommandInput "   " asking))
    as [_ Hblank].
  split; [exact Hexit | apply Hblank; reflexivity].
Defined.

(** The word typed with capitals and blanks while the lesson is paused. *)
Lemma typed_continue_is_the_button_witness :
  let resting :=
    mkApp None false None " Continue " (mkTutorRef 2 1 paused None None) in
  fst (handleCommandSubmit (reads farewell_text farewell) 5 (replying farewell_text) resting)
  = fst (handleContinue (reads farewell_text farewell) 5 (replying farewell_text) resting).
Proof.
  intros resting.
  rewrite (typed_continue_is_the_button (reads farewell_text farewell) 5
             (replying farewell_text) resting eq_refl eq_refl (or_introl eq_refl)).
  reflexivity.
Defined.

(** The answer without options of the scenario, then a click on option 1. *)
Lemma pick_without_correct_id_is_wrong_witness :
  let parse := reads bareAnswer_text bareAnswer in
  let shown := fetchGeminiResponse parse 5 (replying bareAnswer_text) asking None None in
  ref_score (tutorStateRef (snd shown)) = 1 /\
  sent (fst (handleOptionSelect parse 5 (fst shown) (snd shown) 1 "Thank you"))
  = (sent (fst shown)
     ++ [buildGeminiPrompt evaluate (mkState 2 1) (Some false) (Some "Thank you") None 5])%list.
Proof.
  intros parse shown. split; [reflexivity |].
  unfold shown, parse.
  rewrite (pick_without_correct_id_is_wrong (reads bareAnswer_text bareAnswer) 5
             (replying bareAnswer_text) asking None None bareAnswer
             eq_refl eq_refl eq_refl).
  reflexivity.
Defined.

(** An answer of two blanks. *)
Lemma blank_answer_is_an_error_witness :
  fst (callGemini (reads farewell_text farewell) 5
         (mkRemote (fun _ => GenerateReturns (Some "  ")) 0 [])
         teach (mkState 0 0) None None None)
  = inl "Failed to get response from AI tutor. Please try again.".
Proof.
  rewrite (blank_answer_is_an_error (reads farewell_text farewell) 5
             (mkRemote (fun _ => GenerateReturns (Some "  ")) 0 [])
             teach (mkState 0 0) None None None (Some "  ") eq_refl eq_refl).
  reflexivity.
Defined.

(** A request refused by the service. *)
Lemma failure_message_is_reworded_witness :
  In "The AI tutor encountered a server error. Please try again in a moment."
    friendlyMessages.
Proof.
  apply (failure_message_is_reworded (reads farewell_text farewell) 5
           (mkRemote (fun _ => GenerateThrows "got status: 500 Internal") 0 [])
           teach (mkState 0 0) None None None).
  - intros raw. discriminate.
  - reflexivity.
Defined.

End Command_more_runs.

(** * The quiz always ends *)
Section QuizEnds.
Import QuizService QuizMeasure.

Lemma fine_turn_counts_down feedback s inp :
  Inv s -> session_phase s <> completed ->
  turnsLeft (turn (fine feedback) s inp) = turnsLeft s - 1 /\
  session_phase (turn (fine feedback) s inp) <> session_phase s.
Proof.
  destruct s as [p cq cs]. unfold Inv, turnsLeft, turn, sendMessage, sendMessage_try, bind.
  cbn [session_phase session_q session_score fine clientReady generated].
  rewrite QUESTIONS_length_5. intros HI Hphase.
  destruct p.
  - cbn [sessionOf respond phase state q score session_phase session_q].
    split; [lia | discriminate].
  - change (QUESTIONS_at 0) with (nth_error QUESTIONS 0). cbn [nth_error QUESTIONS].
    cbn [sessionOf respond phase state q score session_phase session_q].
    split; [lia | discriminate].
  - destruct (QUESTIONS_at_defined cq) as [qd ->]; [rewrite QUESTIONS_length_5; lia |].
    destruct (isCorrect inp qd);
      cbn [sessionOf respond phase state q score session_phase session_q];
      (split; [lia | discriminate]).
  - destruct (Z.ltb_spec (cq + 1) 5).
    + destruct (QUESTIONS_at_defined (cq + 1)) as [qd ->];
        [rewrite QUESTIONS_length_5; lia |].
      cbn [sessionOf respond phase state q score session_phase session_q].
      split; [lia | discriminate].
    + cbn [sessionOf respond phase state q score session_phase session_q].
      split; [lia | discriminate].
  - cbn [sessionOf respond phase state q score session_phase session_q].
    split; [lia | discriminate].
  - congruence.
Qed.

Lemma turnsLeft_range s :
  Inv s -> 0 <= turnsLeft s <= 13 /\ (turnsLeft s = 0 -> session_phase s = completed).
Proof.
  unfold Inv, turnsLeft. rewrite QUESTIONS_length_5.
  destruct (session_phase s); intros HI; split; try lia; try reflexivity.
Qed.

Lemma countdown_ends feedback n : forall s,
  Inv s -> turnsLeft s = Z.of_nat n ->
  session_phase (run (repeat (fine feedback, None) n) s) = completed.
Proof.
  induction n as [| n IH]; intros s HI Hleft.
  - apply turnsLeft_range; [exact HI | exact Hleft].
  - assert (Hphase : session_phase s <> completed).
    { intros Hc. unfold turnsLeft in Hleft. rewrite Hc in Hleft. lia. }
    destruct (fine_turn_counts_down feedback s None HI Hphase) as [Hdown _].
    cbn [repeat run]. apply IH.
    + apply turn_Inv. exact HI.
    + lia.
Qed.

(** X21: with the texts generated, no turn stalls: from every state of a
    session started at the initial state, other than Completed, a turn
    moves to another phase, with or without an answer. *)
Theorem generated_turn_changes_phase :
  forall turns feedback userInput,
    let s := run turns initialSession in
    session_phase s <> completed ->
    session_phase (turn (fine feedback) s userInput) <> session_phase s.
Proof.
  intros turns feedback inp s Hphase.
  apply fine_turn_counts_down; [| exact Hphase].
  apply run_Inv. unfold Inv. simpl. lia.
Qed.

(** In the middle of the quiz. *)
Lemma generated_turn_changes_phase_witness :
  session_phase
    (turn (fine "Bravo")
       (run [(fine "", None); (fine "", None); (failing, Some 1)] initialSession)
       (Some 1))
  <> ask.
Proof.
  apply (generated_turn_changes_phase
           [(fine "", None); (fine "", None); (failing, Some 1)] "Bravo" (Some 1)).
  discriminate.
Defined.

(** X22: the quiz always ends: from every state of a session started at
    the initial state, whatever happened before, at most thirteen turns
    whose texts are generated lead to phase Completed, even if no answer
    is given. *)
Theorem quiz_ends_within_thirteen_turns :
  forall turns feedback,
    exists n,
      (n <= 13)%nat /\
      session_phase
        (run (repeat (fine feedback, None) n) (run turns initialSession))
      = completed.
Proof.
  intros turns feedback.
  assert (HI : Inv (run turns initialSession))
    by (apply run_Inv; unfold Inv; simpl; lia).
  destruct (turnsLeft_range _ HI) as [Hrange _].
  exists (Z.to_nat (turnsLeft (run turns initialSession))). split; [lia |].
  apply countdown_ends; [exact HI | lia].
Qed.

End QuizEnds.

(** * C3: a click whose content generation fails *)
Section FailedClick.
Import QuizService QuizApp.

Lemma failed_ask_request env i points inp :
  clientReady env = true -> generated env = None -> handlerCompletes env = true ->
  0 <= i < QUESTIONS_length ->
  sendMessage env ask i points inp = Resolved (fallback ask i points).
Proof.
  intros Hready Hgen Hdone Hi. unfold sendMessage, sendMessage_try, bind.
  rewrite Hready, Hgen, Hdone.
  destruct (QUESTIONS_at_defined i Hi) as [qd ->].
  destruct (isCorrect inp qd); reflexivity.
Qed.

(** C3, where the code departs from it: a click whose content generation
    fails does not leave the refs as they were.  The click handler has
    already advanced the phase (and, after a feedback, the question
    index) when it calls the service, the fallback of the service repeats
    that request, and [processTutorTurn] writes it into the refs: from
    phase Teach the refs go to Ask with index 0, from phase Evaluate with
    a question left to Ask with the next index, from Evaluate after the
    last question to Report, and from Ask after the last question to
    Evaluate, the score being kept in each case. *)
Theorem failed_click_commits_advanced_state :
  forall env app actionInput,
    clientReady env = true -> generated env = None -> handlerCompletes env = true ->
    tutorResponse app <> None ->
    let app' := handleAction env app actionInput in
    (currentPhaseRef app = teach ->
     refs app' = mkSession ask 0 (currentScoreRef app))
    /\ (currentPhaseRef app = evaluate -> 0 <= currentQRef app + 1 < 5 ->
        refs app' = mkSession ask (currentQRef app + 1) (currentScoreRef app))
    /\ (currentPhaseRef app = evaluate -> 5 <= currentQRef app + 1 ->
        refs app' = mkSession report (currentQRef app + 1) (currentScoreRef app))
    /\ (currentPhaseRef app = ask -> actionInput <> None -> 5 <= currentQRef app + 1 ->
        refs app' = mkSession evaluate (currentQRef app) (currentScoreRef app)).
Proof.
  intros env app inp Hready Hgen Hdone Hloaded app'. unfold app', handleAction.
  destruct (tutorResponse app); [| congruence].
  split; [| split; [| split]].
  - intros ->. unfold processTutorTurn.
    rewrite failed_ask_request by (rewrite ?QUESTIONS_length_5; auto; lia). reflexivity.
  - intros -> Hq. destruct (Z.ltb_spec (currentQRef app + 1) 5); [| lia].
    unfold processTutorTurn.
    rewrite failed_ask_request by (rewrite ?QUESTIONS_length_5; auto; lia). reflexivity.
  - intros -> Hq. destruct (Z.ltb_spec (currentQRef app + 1) 5); [lia |].
    unfold processTutorTurn, sendMessage, sendMessage_try, bind.
    rewrite Hready, Hgen, Hdone. reflexivity.
  - intros -> Hinp Hq. destruct inp as [chosen |]; [| congruence].
    unfold processTutorTurn, sendMessage, sendMessage_try, bind.
    rewrite Hready, Hgen, Hdone, QUESTIONS_length_5.
    destruct (Z.ltb_spec (currentQRef app + 1) 5); [lia |]. reflexivity.
Qed.

(** The lesson is on display (refs Teach, 0, 0); the click on Continue
    meets a failing generation and leaves the refs at Ask, 0, 0.  The
    same click repeated with generation restored is then refused for a
    missing answer, whereas on the untouched state it is answered. *)
Lemma failed_click_commits_advanced_state_witness :
  let before := mount (fine "Bonjour") in
  let after := handleAction failing before None in
  refs before = mkSession teach 0 0 /\
  refs after = mkSession ask 0 0 /\
  refs (handleAction (fine "Bravo") after None) = mkSession ask 0 0 /\
  error (handleAction (fine "Bravo") after None) = Some "Please select an answer." /\
  refs (handleAction (fine "Bravo") before None) = mkSession evaluate 0 0.
Proof.
  intros before after.
  assert (Hloaded : tutorResponse before <> None) by discriminate.
  destruct (failed_click_commits_advanced_state failing before None
              eq_refl eq_refl eq_refl Hloaded) as [Hteach _].
  split; [reflexivity |].
  split; [exact (Hteach eq_refl) |].
  repeat split.
Defined.

End FailedClick.
